(** * slogging: a logger whose level is read and set over HTTP

    A shallow embedding of the Go package [slogging] (files [log.go] and its
    sibling revisions): the level registry ([levels], [levelMap], [Levels],
    [LevelsString], [ParseLevel]), the logger factory ([Create],
    [SetDefaults]), the level control handler ([logHandler.ServeHTTP], in its
    catalogue revision and in its [UnmarshalText] revision) and [Fatal];
    then the earlier revision ([SetDefault], [ServeHTTP] with [slog.Info])
    and [LogBuildInfo].

    The parts of the Go standard library the package calls ([strings],
    [strconv], [fmt], [log/slog], [net/http]) are modelled next to it, as far
    as the package uses them. *)

From Stdlib Require Import ZArith String Ascii List Bool Lia.
From stdpp Require Import base option gmap strings list.

Open Scope Z_scope.

(* ===================================================================== *)
(** ** Go strings: byte sequences                                          *)
(* ===================================================================== *)

(** A Go [string] is a sequence of bytes; Rocq's [string] is the same.  The
    library functions below are exact on strings whose bytes are all below
    0x80.  On the others Go decodes UTF-8 and consults the Unicode tables,
    which are taken here as an interface. *)

Class UnicodeTables := {
  (** [strings.Map(unicode.ToLower, s)], used by [strings.ToLower] when [s]
      holds a byte >= 0x80 *)
  mapToLower : string -> string;
  (** [strings.Map(unicode.ToUpper, s)], used by [strings.ToUpper] likewise *)
  mapToUpper : string -> string;
  (** [strconv.Quote s] for an [s] that holds a byte >= 0x80 *)
  quoteUnicode : string -> string
}.

Module strings.

Definition code (c : ascii) : Z := Z.of_N (N_of_ascii c).

Definition chr (n : Z) : ascii := ascii_of_N (Z.to_N n).

(** [c >= utf8.RuneSelf] fails for every byte of the string *)
Fixpoint isASCII (s : string) : bool :=
  match s with
  | EmptyString => true
  | String c s' => (code c <? 128) && isASCII s'
  end.

(** ['A' <= c && c <= 'Z'] then [c += 'a' - 'A'] *)
Definition lowerByte (c : ascii) : ascii :=
  if (65 <=? code c) && (code c <=? 90) then chr (code c + 32) else c.

(** ['a' <= c && c <= 'z'] then [c -= 'a' - 'A'] *)
Definition upperByte (c : ascii) : ascii :=
  if (97 <=? code c) && (code c <=? 122) then chr (code c - 32) else c.

Fixpoint mapBytes (f : ascii -> ascii) (s : string) : string :=
  match s with
  | EmptyString => EmptyString
  | String c s' => String (f c) (mapBytes f s')
  end.

Section WithTables.
Context `{UnicodeTables}.

(** [strings.ToLower]: the ASCII path rewrites the upper-case bytes in
    place, the other path maps [unicode.ToLower] over the runes. *)
Definition ToLower (s : string) : string :=
  if isASCII s then mapBytes lowerByte s else mapToLower s.

Definition ToUpper (s : string) : string :=
  if isASCII s then mapBytes upperByte s else mapToUpper s.
End WithTables.

(** [strings.Split(s, sep)] for a separator of one byte, which is how the
    package calls it: the pieces of [s] between the occurrences of [sep],
    [Count(s, sep) + 1] of them. *)
Fixpoint Split (s : string) (sep : ascii) : list string :=
  match s with
  | EmptyString => [EmptyString]
  | String c s' =>
      if Ascii.eqb c sep then EmptyString :: Split s' sep
      else match Split s' sep with
           | x :: xs => String c x :: xs
           | [] => [String c EmptyString]
           end
  end.

(** [strings.Join(xs, sep)] *)
Definition Join (xs : list string) (sep : string) : string :=
  String.concat sep xs.

(** [strings.IndexAny(s, "+-")]: the set is ASCII, so the first rune of the
    set is the first byte of the set. *)
Fixpoint IndexAny_plus_minus (s : string) : option nat :=
  match s with
  | EmptyString => None
  | String c s' =>
      if Ascii.eqb c "+" || Ascii.eqb c "-" then Some 0%nat
      else S <$> IndexAny_plus_minus s'
  end.

(** the slices [s[:i]] and [s[i:]] *)
Definition slice_to (s : string) (i : nat) : string := String.substring 0 i s.
Definition slice_from (s : string) (i : nat) : string :=
  String.substring i (String.length s - i) s.

End strings.

(* ===================================================================== *)
(** ** strconv and fmt                                                     *)
(* ===================================================================== *)

Module strconv.
Import strings.

Definition minInt64 : Z := - 2 ^ 63.
Definition maxInt64 : Z := 2 ^ 63 - 1.

(** two's complement wrap-around of Go's [int] (64 bits) *)
Definition wrap64 (z : Z) : Z := (z + 2 ^ 63) mod 2 ^ 64 - 2 ^ 63.

Definition isDigit (c : ascii) : bool := (48 <=? code c) && (code c <=? 57).

Fixpoint allDigits (s : string) : bool :=
  match s with
  | EmptyString => true
  | String c s' => isDigit c && allDigits s'
  end.

Fixpoint digitsValue (acc : Z) (s : string) : Z :=
  match s with
  | EmptyString => acc
  | String c s' => digitsValue (10 * acc + (code c - 48)) s'
  end.

(** [strconv.Atoi]: an optional sign, then one or more decimal digits; the
    value has to fit an [int].  [None] is a non-nil error. *)
Definition Atoi (s : string) : option Z :=
  let '(neg, ds) :=
    match s with
    | String c s' =>
        if Ascii.eqb c "+" then (false, s')
        else if Ascii.eqb c "-" then (true, s')
        else (false, s)
    | EmptyString => (false, s)
    end in
  match ds with
  | EmptyString => None
  | _ =>
      if allDigits ds then
        let v := if neg then - digitsValue 0 ds else digitsValue 0 ds in
        if (minInt64 <=? v) && (v <=? maxInt64) then Some v else None
      else None
  end.

Definition digitChar (d : Z) : ascii := chr (48 + d).

Fixpoint decimalDigits (fuel : nat) (n : Z) (acc : string) : string :=
  match fuel with
  | O => acc
  | S fuel' =>
      let acc' := String (digitChar (n mod 10)) acc in
      if n / 10 =? 0 then acc' else decimalDigits fuel' (n / 10) acc'
  end.

(** the decimal digits of a natural number [n] *)
Definition FormatUint (n : Z) : string :=
  decimalDigits (S (Z.to_nat (Z.log2 n))) n EmptyString.

Definition hexChar (d : Z) : ascii :=
  if d <? 10 then chr (48 + d) else chr (87 + d).

Definition quoteChar : ascii := chr 34.
Definition backslash : ascii := chr 92.

Definition str1 (c : ascii) : string := String c EmptyString.

(** [appendEscapedRune] of [strconv.Quote] on a byte below 0x80 *)
Definition escapeByte (c : ascii) : string :=
  let n := code c in
  if (n =? 34) || (n =? 92) then String backslash (str1 c)
  else if (32 <=? n) && (n <? 127) then str1 c
  else if n =? 7 then String backslash "a"
  else if n =? 8 then String backslash "b"
  else if n =? 12 then String backslash "f"
  else if n =? 10 then String backslash "n"
  else if n =? 13 then String backslash "r"
  else if n =? 9 then String backslash "t"
  else if n =? 11 then String backslash "v"
  else String backslash (String "x" (String (hexChar (n / 16)) (str1 (hexChar (n mod 16))))).

Fixpoint escapeBytes (s : string) : string :=
  match s with
  | EmptyString => EmptyString
  | String c s' => escapeByte c +:+ escapeBytes s'
  end.

(** [strconv.Quote], which is what [fmt]'s verb [%q] prints for a string *)
Definition Quote `{UnicodeTables} (s : string) : string :=
  if isASCII s then String quoteChar (escapeBytes s +:+ str1 quoteChar)
  else quoteUnicode s.

(** [fmt.Sprintf("%+d", n)] *)
Definition FormatSigned (n : Z) : string :=
  if n <? 0 then String "-" (FormatUint (- n)) else String "+" (FormatUint n).

End strconv.


(* ===================================================================== *)
(** ** log/slog                                                            *)
(* ===================================================================== *)

(** addresses of the [slog.LevelVar] cells *)
Definition loc := positive.

Module slog.
Import strings strconv.

(** [type Level int] *)
Definition Level := Z.

Definition LevelDebug : Level := -4.
Definition LevelInfo : Level := 0.
Definition LevelWarn : Level := 4.
Definition LevelError : Level := 8.

(** [Level.String]: the name of the nearest anchor at or below [l], and the
    signed distance to it when it is not zero *)
Definition Level_String (l : Level) : string :=
  let str (base : string) (val : Level) : string :=
    if val =? 0 then base else base +:+ FormatSigned val in
  if l <? LevelInfo then str "DEBUG" (wrap64 (l - LevelDebug))
  else if l <? LevelWarn then str "INFO" (wrap64 (l - LevelInfo))
  else if l <? LevelError then str "WARN" (wrap64 (l - LevelWarn))
  else str "ERROR" (wrap64 (l - LevelError)).

(** [Level.UnmarshalText], that is [Level.parse]: a name, then an optional
    signed offset.  [None] is a non-nil error; [Some l] is the level the
    receiver holds after a nil error. *)
Definition Level_UnmarshalText `{UnicodeTables} (s : string) : option Level :=
  let parsed : option (string * Z) :=
    match IndexAny_plus_minus s with
    | Some i =>
        match Atoi (slice_from s i) with
        | Some offset => Some (slice_to s i, offset)
        | None => None
        end
    | None => Some (s, 0)
    end in
  match parsed with
  | None => None
  | Some (name, offset) =>
      let upper := ToUpper name in
      if String.eqb upper "DEBUG" then Some (wrap64 (LevelDebug + offset))
      else if String.eqb upper "INFO" then Some (wrap64 (LevelInfo + offset))
      else if String.eqb upper "WARN" then Some (wrap64 (LevelWarn + offset))
      else if String.eqb upper "ERROR" then Some (wrap64 (LevelError + offset))
      else None
  end.

(** the [Leveler] interface, with its two implementations in [slog]: a
    [Level] and a pointer to a [LevelVar] *)
Inductive Leveler :=
| LevelConst (l : Level)
| LevelVarPtr (p : loc).

Inductive Value :=
| StringValue (s : string)
| LevelValue (l : Level).

Record Attr := { Key : string; Val : Value }.

(** [slog.String(key, value)] *)
Definition String_ (key value : string) : Attr :=
  {| Key := key; Val := StringValue value |}.

(** [slog.HandlerOptions]; a nil [Level] is [None] *)
Record HandlerOptions := {
  AddSource : bool;
  Level_ : option Leveler;
  ReplaceAttr : option (list string -> Attr -> Attr)
}.

(** the handlers that write to [os.Stderr]: [NewJSONHandler],
    [NewTextHandler], and the handler of the logger that is the default
    when the process starts *)
Inductive HandlerKind := JSONHandler | TextHandler | StartupHandler.

Record Handler := {
  kind : HandlerKind;
  options : HandlerOptions;
  attrs_ : list Attr        (* given by [WithAttrs] *)
}.

Definition NewJSONHandler (o : HandlerOptions) : Handler :=
  {| kind := JSONHandler; options := o; attrs_ := [] |}.

Definition NewTextHandler (o : HandlerOptions) : Handler :=
  {| kind := TextHandler; options := o; attrs_ := [] |}.

Definition WithAttrs (h : Handler) (attrs : list Attr) : Handler :=
  {| kind := kind h; options := options h; attrs_ := attrs_ h ++ attrs |}.

Record Logger := { handler : Handler }.

(** [slog.New] *)
Definition New (h : Handler) : Logger := {| handler := h |}.

(** what a handler is handed: level, message and the arguments of the call
    (time and program counter are left out) *)
Record Record_ := {
  rlevel : Level;
  rmsg : string;
  rattrs : list Attr
}.

(** The process, as far as the package touches it. *)
Record World := {
  heap : gmap loc Level;                 (* the [LevelVar] cells *)
  defaultLogger : Logger;                (* [slog.Default()] *)
  stderr : list (Handler * Record_)      (* records handled, oldest first *)
}.

(** How a call ends: it returns, the process exits ([os.Exit]), or the
    goroutine panics. *)
Inductive Outcome (A : Type) :=
| Returns (a : A) (w : World)
| Exits (status : Z) (w : World)
| Panics (w : World).
Arguments Returns {A} a w.
Arguments Exits {A} status w.
Arguments Panics {A} w.

Definition M (A : Type) := World -> Outcome A.

Definition ret {A} (a : A) : M A := fun w => Returns a w.

Definition bind {A B} (m : M A) (k : A -> M B) : M B :=
  fun w =>
    match m w with
    | Returns a w' => k a w'
    | Exits c w' => Exits c w'
    | Panics w' => Panics w'
    end.

Definition panic {A} : M A := fun w => Panics w.

(** [os.Exit(code)] *)
Definition os_Exit {A} (status : Z) : M A := fun w => Exits status w.

(** [v := slog.LevelVar{}]: a fresh cell, holding the zero value *)
Definition newLevelVar : M loc :=
  fun w =>
    let p := fresh (dom (heap w)) in
    Returns p {| heap := <[p := 0]> (heap w);
                 defaultLogger := defaultLogger w;
                 stderr := stderr w |}.

(** [LevelVar.Level]: an atomic load; a pointer to no cell is nil *)
Definition LevelVar_Level (p : loc) : M Level :=
  fun w =>
    match heap w !! p with
    | Some l => Returns l w
    | None => Panics w
    end.

(** [LevelVar.Set]: an atomic store *)
Definition LevelVar_Set (p : loc) (l : Level) : M unit :=
  fun w =>
    match heap w !! p with
    | Some _ => Returns tt {| heap := <[p := l]> (heap w);
                              defaultLogger := defaultLogger w;
                              stderr := stderr w |}
    | None => Panics w
    end.

(** [Leveler.Level()] *)
Definition Leveler_Level (lv : Leveler) : M Level :=
  match lv with
  | LevelConst l => ret l
  | LevelVarPtr p => LevelVar_Level p
  end.

(** [opts.Level.Level()] on a field that may be nil *)
Definition Level_of_option (o : option Leveler) : M Level :=
  match o with
  | Some lv => Leveler_Level lv
  | None => panic
  end.

(** [Handler.Enabled]: [LevelInfo] is the threshold of a nil [Level] *)
Definition Enabled (h : Handler) (l : Level) : M bool :=
  match Level_ (options h) with
  | None => ret (LevelInfo <=? l)
  | Some lv => bind (Leveler_Level lv) (fun minLevel => ret (minLevel <=? l))
  end.

Definition Handle (h : Handler) (r : Record_) : M unit :=
  fun w => Returns tt {| heap := heap w;
                         defaultLogger := defaultLogger w;
                         stderr := stderr w ++ [(h, r)] |}.

(** [Logger.LogAttrs] and, on arguments that are attributes already,
    [Logger.Log]: nothing when the handler is not enabled at [l] *)
Definition Logger_Log (lg : Logger) (l : Level) (msg : string)
    (args : list Attr) : M unit :=
  bind (Enabled (handler lg) l) (fun on =>
    if on then Handle (handler lg) {| rlevel := l; rmsg := msg; rattrs := args |}
    else ret tt).

(** [slog.SetDefault] *)
Definition SetDefault (lg : Logger) : M unit :=
  fun w => Returns tt {| heap := heap w;
                         defaultLogger := lg;
                         stderr := stderr w |}.

(** [slog.LogAttrs]: [Default().LogAttrs] *)
Definition LogAttrs (l : Level) (msg : string) (attrs : list Attr) : M unit :=
  fun w => Logger_Log (defaultLogger w) l msg attrs w.

End slog.

(** the calls are sequenced with stdpp's notations [x ← m; k] and [m;; k] *)
#[export] Instance M_ret : MRet slog.M := @slog.ret.
#[export] Instance M_bind : MBind slog.M := fun A B k m => slog.bind m k.

(* ===================================================================== *)
(** ** net/http                                                            *)
(* ===================================================================== *)

Module http.

Definition MethodGet : string := "GET".
Definition MethodPut : string := "PUT".
Definition MethodPost : string := "POST".
Definition MethodDelete : string := "DELETE".

Definition StatusOK : Z := 200.
Definition StatusAccepted : Z := 202.
Definition StatusBadRequest : Z := 400.
Definition StatusMethodNotAllowed : Z := 405.

(** [http.Request], with [r.URL.Path] and [r.URL.RawQuery] as fields *)
Record Request := {
  Method : string;
  URL_Path : string;
  URL_RawQuery : string;
  Header : list (string * list string);
  Body : string
}.

(** the state of a [http.ResponseWriter] *)
Record ResponseWriter := {
  wroteHeader : bool;
  status : Z;
  body : string
}.

Definition newResponseWriter : ResponseWriter :=
  {| wroteHeader := false; status := 0; body := EmptyString |}.

(** [w.WriteHeader(code)]: the first call fixes the status *)
Definition WriteHeader (w : ResponseWriter) (code : Z) : ResponseWriter :=
  if wroteHeader w then w
  else {| wroteHeader := true; status := code; body := body w |}.

(** statuses 1xx, 204 and 304 carry no body *)
Definition bodyAllowedForStatus (code : Z) : bool :=
  negb (((100 <=? code) && (code <=? 199)) || (code =? 204) || (code =? 304)).

(** [w.Write(data)]: writes the header with [StatusOK] if none was written *)
Definition Write (w : ResponseWriter) (data : string) : ResponseWriter :=
  let w1 := WriteHeader w StatusOK in
  if bodyAllowedForStatus (status w1)
  then {| wroteHeader := true; status := status w1; body := body w1 +:+ data |}
  else w1.

(** what the client receives: (status, body) *)
Definition Response : Type := Z * string.

(** when the handler returns, the server writes the header if the handler
    did not *)
Definition finish (w : ResponseWriter) : Response :=
  let w1 := WriteHeader w StatusOK in (status w1, body w1).

(** one request served by [handler] on a fresh [ResponseWriter] *)
Definition serve (handler : ResponseWriter -> Request -> slog.M ResponseWriter)
    (r : Request) : slog.M Response :=
  w ← handler newResponseWriter r; mret (finish w).

End http.

(* ===================================================================== *)
(** ** package slogging                                                    *)
(* ===================================================================== *)

Module slogging.
Import strings strconv slog http.

(** [type logHandler struct] *)
Record logHandler := {
  init : Level;
  current : loc
}.

Section Package.
Context `{UnicodeTables}.

(** ordered list of levels *)
Definition levels : list Level :=
  [LevelDebug; LevelInfo; LevelWarn; LevelError].

(** [func init()]: the map it leaves in [levelMap] *)
Definition package_init : gmap string Level :=
  foldl (fun m level => <[ToLower (Level_String level) := level]> m) ∅ levels.

Definition levelMap : gmap string Level := package_init.

(** a copy of [levels] *)
Definition Levels : list Level := levels.

Definition LevelsString : string :=
  Join (map Level_String levels) ", ".

(** the zero [Level] comes with [false] *)
Definition ParseLevel (s : string) : Level * bool :=
  match levelMap !! ToLower s with
  | Some level => (level, true)
  | None => (0, false)
  end.

(** create logger with options and attributes *)
Definition Create (opts : HandlerOptions) (jsonOutput : bool)
    (attrs : list Attr) : M (Logger * logHandler) :=
  v ← newLevelVar;
  l ← Level_of_option (Level_ opts);
  LevelVar_Set v l;;
  let o := {| AddSource := AddSource opts;
              Level_ := Some (LevelVarPtr v);
              ReplaceAttr := ReplaceAttr opts |} in
  l' ← Level_of_option (Level_ opts);
  let h := {| init := l'; current := v |} in
  if jsonOutput
  then mret (New (WithAttrs (NewJSONHandler o) attrs), h)
  else mret (New (WithAttrs (NewTextHandler o) attrs), h).

(** create logger (using Create) and sets the default logger *)
Definition SetDefaults (opts : HandlerOptions) (jsonOutput : bool)
    (attributes : list Attr) : M logHandler :=
  '(logger, handler) ← Create opts jsonOutput attributes;
  SetDefault logger;;
  mret handler.

(** will log to ERROR+4 and call os.Exit(1) *)
Definition Fatal (log : Logger) (message : string) (args : list Attr) : M unit :=
  Logger_Log log (wrap64 (LevelError + 4)) message args;;
  os_Exit 1.

Definition usageHint : string :=
  "specify log level as last part of the URL, e.g. PUT /log/debug".
End Package.

(** [ServeHTTP] in the revision that parses against the catalogue *)
Module part_000.
Section Handler.
Context `{UnicodeTables}.

Definition ServeHTTP (h : logHandler) (w : ResponseWriter) (r : Request)
    : M ResponseWriter :=
  if String.eqb (Method r) MethodGet then
    l ← LevelVar_Level (current h);
    mret (Write w (Level_String l))
  else if String.eqb (Method r) MethodPut || String.eqb (Method r) MethodPost then
    (* extract level from last path of URL *)
    let xs := Split (URL_Path r) "/" in
    if (length xs =? 0)%nat then
      mret (Write (WriteHeader w StatusBadRequest) usageHint)
    else
      match xs !! (length xs - 1)%nat with
      | None => panic
      | Some x =>
          let '(lvl, exists_) := ParseLevel x in
          if negb exists_ then
            mret (Write (WriteHeader w StatusBadRequest)
                    ("unknown log level " +:+ Quote x +:+
                     ", specify one of " +:+ LevelsString))
          else
            LevelVar_Set (current h) lvl;;
            let w := WriteHeader w StatusAccepted in
            LogAttrs LevelInfo "log level set"
              [String_ "newLevel" (Level_String lvl)];;
            mret w
      end
  else if String.eqb (Method r) MethodDelete then
    LevelVar_Set (current h) (init h);;
    let w := WriteHeader w StatusAccepted in
    LogAttrs LevelInfo "log level reset"
      [String_ "newLevel" (Level_String (init h))];;
    mret w
  else
    mret (WriteHeader w StatusMethodNotAllowed).

End Handler.
End part_000.

(** [ServeHTTP] of [log.go], which parses with [Level.UnmarshalText] *)
Module log_go.
Section Handler.
Context `{UnicodeTables}.

Definition ServeHTTP (h : logHandler) (w : ResponseWriter) (r : Request)
    : M ResponseWriter :=
  if String.eqb (Method r) MethodGet then
    l ← LevelVar_Level (current h);
    mret (Write w (Level_String l))
  else if String.eqb (Method r) MethodPut || String.eqb (Method r) MethodPost then
    (* extract level from last path of URL *)
    let xs := Split (URL_Path r) "/" in
    if (length xs =? 0)%nat then
      mret (Write (WriteHeader w StatusBadRequest) usageHint)
    else
      match xs !! (length xs - 1)%nat with
      | None => panic
      | Some lastPart =>
          match Level_UnmarshalText lastPart with
          | None =>
              mret (Write (WriteHeader w StatusBadRequest)
                      ("unknown log level " +:+ Quote lastPart))
          | Some lvl =>
              LevelVar_Set (current h) lvl;;
              let w := WriteHeader w StatusAccepted in
              LogAttrs LevelInfo "log level set"
                [String_ "newLevel" (Level_String lvl)];;
              mret w
          end
      end
  else if String.eqb (Method r) MethodDelete then
    LevelVar_Set (current h) (init h);;
    let w := WriteHeader w StatusAccepted in
    LogAttrs LevelInfo "log level reset"
      [String_ "newLevel" (Level_String (init h))];;
    mret w
  else
    mret (WriteHeader w StatusMethodNotAllowed).

End Handler.
End log_go.

End slogging.

Import strings strconv slog http slogging.

(** tables that leave every string as it is, to evaluate the definitions on
    concrete inputs (every input evaluated below is ASCII, where the tables
    are not consulted) *)
Definition noTables : UnicodeTables :=
  {| mapToLower := fun s => s; mapToUpper := fun s => s; quoteUnicode := fun s => s |}.

(** Go's tables on the strings whose only rune outside ASCII is U+0130, the
    capital I with a dot above, which UTF-8 writes as the bytes C4 B0:
    [unicode.ToLower] sends it to the letter i (and lower-cases the ASCII
    letters), [unicode.ToUpper] keeps it, and [strconv.Quote] prints it as
    it is. *)
Fixpoint lowerWithDottedI (s : string) : string :=
  match s with
  | EmptyString => EmptyString
  | String c rest =>
      match rest with
      | String d rest' =>
          if (code c =? 196) && (code d =? 176)
          then String "i" (lowerWithDottedI rest')
          else String (lowerByte c) (lowerWithDottedI rest)
      | EmptyString => String (lowerByte c) EmptyString
      end
  end.

Fixpoint quoteWithDottedI (s : string) : string :=
  match s with
  | EmptyString => str1 quoteChar
  | String c rest =>
      (if code c <? 128 then escapeByte c else str1 c) +:+ quoteWithDottedI rest
  end.

Definition dottedITables : UnicodeTables :=
  {| mapToLower := lowerWithDottedI;
     mapToUpper := mapBytes upperByte;
     quoteUnicode := fun s => String quoteChar (quoteWithDottedI s) |}.

(** the string of U+0130 and the letters N, F, O *)
Definition dottedINFO : string := String (chr 196) (String (chr 176) "NFO").

(* ===================================================================== *)
(** ** The earlier revision, and the build information                     *)
(* ===================================================================== *)

(** [slog.Info] and the pairing of its [...any] arguments into attributes.
    The arguments the package passes are strings and levels; [any] holds
    those. *)
Module slog_args.

Inductive any :=
| AnyString (s : string)
| AnyLevel (l : Level).

Definition badKey : string := "!BADKEY".

(** [slog.AnyValue]: a string becomes a string value, a [Level] is kept *)
Definition AnyValue (v : any) : Value :=
  match v with
  | AnyString s => StringValue s
  | AnyLevel l => LevelValue l
  end.

(** [slog.Any(key, v)] *)
Definition Any (key : string) (v : any) : Attr :=
  {| Key := key; Val := AnyValue v |}.

(** [Record.Add], which calls [argsToAttr] until the arguments are used up:
    a string is the key of the argument after it, a string that is the last
    argument and a value that is no string get the key [badKey] *)
Fixpoint argsToAttrSlice (args : list any) : list Attr :=
  match args with
  | [] => []
  | x :: rest =>
      match x, rest with
      | AnyString x', [] => [String_ badKey x']
      | AnyString key, v :: rest' => Any key v :: argsToAttrSlice rest'
      | AnyLevel _, _ => Any badKey x :: argsToAttrSlice rest
      end
  end.

(** [slog.Info]: [Default().Info] *)
Definition Info (msg : string) (args : list any) : M unit :=
  fun w => Logger_Log (defaultLogger w) LevelInfo msg (argsToAttrSlice args) w.

End slog_args.

(** the revision with [SetDefault] and [slog.Info] ([part_001], and the
    second half of [log.go]) *)
Module part_001.
Import slog_args.

(** set default slog options and attributes *)
Definition SetDefault (level : Level) (addSource jsonOutput : bool)
    (attributes : list Attr) : M logHandler :=
  v ← newLevelVar;
  LevelVar_Set v level;;
  let opts := {| AddSource := addSource;
                 Level_ := Some (LevelVarPtr v);
                 ReplaceAttr := None |} in
  (if jsonOutput
   then slog.SetDefault (New (WithAttrs (NewJSONHandler opts) attributes))
   else slog.SetDefault (New (WithAttrs (NewTextHandler opts) attributes)));;
  mret {| init := level; current := v |}.

Section Handler.
Context `{UnicodeTables}.

Definition ServeHTTP (h : logHandler) (w : ResponseWriter) (r : Request)
    : M ResponseWriter :=
  if String.eqb (Method r) MethodGet then
    l ← LevelVar_Level (current h);
    mret (Write w (Level_String l))
  else if String.eqb (Method r) MethodPut || String.eqb (Method r) MethodPost then
    (* extract level from last path of URL *)
    let xs := Split (URL_Path r) "/" in
    if (length xs =? 0)%nat then
      mret (Write (WriteHeader w StatusBadRequest) usageHint)
    else
      match xs !! (length xs - 1)%nat with
      | None => panic
      | Some x =>
          let '(lvl, exists_) := ParseLevel x in
          if negb exists_ then
            mret (Write (WriteHeader w StatusBadRequest)
                    ("unknown log level " +:+ Quote x +:+
                     ", specify one of " +:+ LevelsString))
          else
            LevelVar_Set (current h) lvl;;
            let w := WriteHeader w StatusAccepted in
            Info "log level set" [AnyString "newLevel"; AnyLevel lvl];;
            mret w
      end
  else if String.eqb (Method r) MethodDelete then
    LevelVar_Set (current h) (init h);;
    let w := WriteHeader w StatusAccepted in
    Info "log level reset" [AnyString "newLevel"; AnyLevel (init h)];;
    mret w
  else
    mret (WriteHeader w StatusMethodNotAllowed).

End Handler.
End part_001.

(** [LogBuildInfo].  What [debug.ReadBuildInfo] returns is an argument:
    [None] when the binary carries no build information. *)
Module buildinfo.

(** [debug.BuildSetting] *)
Record BuildSetting := { SKey : string; SValue : string }.

(** [debug.BuildInfo], as far as it is read *)
Record BuildInfo := {
  GoVersion : string;
  Settings : list BuildSetting
}.

(** [strings.HasPrefix] *)
Definition HasPrefix (s prefix : string) : bool := String.prefix prefix s.

(** the attributes the loop collects *)
Definition collect (info : BuildInfo) : list Attr :=
  foldl (fun attrs kv =>
           if HasPrefix (SKey kv) "vcs"
           then attrs ++ [String_ (SKey kv) (SValue kv)]
           else attrs)
        [String_ "goVersion" (GoVersion info)]
        (Settings info).

(** log build info (go version and vcs revision, time and modified) to Info
    level.  Returns true if some build info was found. *)
Definition LogBuildInfo (read : option BuildInfo) : M bool :=
  match read with
  | None => mret false
  | Some info =>
      LogAttrs LevelInfo "build info" (collect info);;
      mret true
  end.

(** the second half of [log.go]: the same, with no result *)
Definition LogBuildInfo_noResult (read : option BuildInfo) : M unit :=
  match read with
  | Some info => LogAttrs LevelInfo "build info" (collect info)
  | None => mret tt
  end.

End buildinfo.

(* ===================================================================== *)
(** ** Notions the properties are stated with                              *)
(* ===================================================================== *)

(** [s] is [t] up to the case of its ASCII letters, byte by byte *)
Fixpoint sameLetters (s t : string) : bool :=
  match s, t with
  | EmptyString, EmptyString => true
  | String c s', String d t' => Ascii.eqb (lowerByte c) (lowerByte d) && sameLetters s' t'
  | _, _ => false
  end.

(** the last of the segments of a path between its slashes *)
Definition lastSegment (path : string) : option string :=
  last (Split path "/").

Fixpoint hasSlash (s : string) : bool :=
  match s with
  | EmptyString => false
  | String c s' => if Ascii.eqb c "/" then true else hasSlash s'
  end.

(** the threshold a handler compares a record's level with *)
Definition threshold (h : Handler) (w : World) : option Level :=
  match Level_ (options h) with
  | None => Some LevelInfo
  | Some (LevelConst l) => Some l
  | Some (LevelVarPtr p) => heap w !! p
  end.

(** the default logger's level can be read: a pointer it holds points to a cell *)
Definition defaultReadable (w : World) : Prop :=
  is_Some (threshold (handler (defaultLogger w)) w).

Definition result {A} (o : Outcome A) : option A :=
  match o with
  | Returns a _ => Some a
  | _ => None
  end.

Definition world {A} (o : Outcome A) : World :=
  match o with
  | Returns _ w | Exits _ w | Panics w => w
  end.

Definition request (method path : string) : Request :=
  {| Method := method; URL_Path := path; URL_RawQuery := EmptyString;
     Header := []; Body := EmptyString |}.

(** a process that has just started: no cell, the startup logger, no output *)
Definition startWorld : World :=
  {| heap := ∅;
     defaultLogger := New {| kind := StartupHandler;
                             options := {| AddSource := false; Level_ := None;
                                           ReplaceAttr := None |};
                             attrs_ := [] |};
     stderr := [] |}.

Definition optionsAt (l : Level) : HandlerOptions :=
  {| AddSource := false; Level_ := Some (LevelConst l); ReplaceAttr := None |}.

(** the world after a store to a cell *)
Definition setCell (p : loc) (l : Level) (w : World) : World :=
  {| heap := <[p := l]> (heap w);
     defaultLogger := defaultLogger w;
     stderr := stderr w |}.

(** the world after a handler wrote a record *)
Definition written (h : Handler) (r : Record_) (w : World) : World :=
  {| heap := heap w;
     defaultLogger := defaultLogger w;
     stderr := stderr w ++ [(h, r)] |}.

(** the world after a call of a logger at level [l]: the record is written
    when the threshold is at most [l] *)
Definition logged (lg : Logger) (l : Level) (msg : string) (args : list Attr)
    (w : World) : World :=
  match threshold (handler lg) w with
  | Some t =>
      if t <=? l
      then written (handler lg) {| rlevel := l; rmsg := msg; rattrs := args |} w
      else w
  | None => w
  end.

(** The two revisions of [ServeHTTP] differ in the parser of the last segment
    and in the body of the complaint only; this is their common shape. *)
Definition ServeHTTP_with (parse : string -> option Level)
    (complaint : string -> string)
    (h : logHandler) (w : ResponseWriter) (r : Request) : M ResponseWriter :=
  if String.eqb (Method r) MethodGet then
    l ← LevelVar_Level (current h);
    mret (Write w (Level_String l))
  else if String.eqb (Method r) MethodPut || String.eqb (Method r) MethodPost then
    let xs := Split (URL_Path r) "/" in
    if (length xs =? 0)%nat then
      mret (Write (WriteHeader w StatusBadRequest) usageHint)
    else
      match xs !! (length xs - 1)%nat with
      | None => panic
      | Some x =>
          match parse x with
          | None => mret (Write (WriteHeader w StatusBadRequest) (complaint x))
          | Some lvl =>
              LevelVar_Set (current h) lvl;;
              let w := WriteHeader w StatusAccepted in
              LogAttrs LevelInfo "log level set"
                [String_ "newLevel" (Level_String lvl)];;
              mret w
          end
      end
  else if String.eqb (Method r) MethodDelete then
    LevelVar_Set (current h) (init h);;
    let w := WriteHeader w StatusAccepted in
    LogAttrs LevelInfo "log level reset"
      [String_ "newLevel" (Level_String (init h))];;
    mret w
  else
    mret (WriteHeader w StatusMethodNotAllowed).

(** [ParseLevel] as a partial function *)
Definition parseCatalogue `{UnicodeTables} (x : string) : option Level :=
  let '(lvl, exists_) := ParseLevel x in if exists_ then Some lvl else None.

Definition complaintCatalogue `{UnicodeTables} (x : string) : string :=
  "unknown log level " +:+ Quote x +:+ ", specify one of " +:+ LevelsString.

Definition complaintPlain `{UnicodeTables} (x : string) : string :=
  "unknown log level " +:+ Quote x.

(** a request that sets the level: PUT or POST *)
Definition setsLevel (r : Request) : Prop :=
  Method r = MethodPut \/ Method r = MethodPost.

(** a request of a method the handler does not know *)
Definition unknownMethod (r : Request) : Prop :=
  Method r <> MethodGet /\ Method r <> MethodPut /\
  Method r <> MethodPost /\ Method r <> MethodDelete.

(** a run of requests, one after the other *)
Fixpoint serveAll (handler : ResponseWriter -> Request -> M ResponseWriter)
    (rs : list Request) : M (list Response) :=
  match rs with
  | [] => mret []
  | r :: rs' =>
      x ← serve handler r;
      xs ← serveAll handler rs';
      mret (x :: xs)
  end.

(** the cell of the handler exists and the default logger can read its level *)
Definition ready (h : logHandler) (w : World) : Prop :=
  is_Some (heap w !! current h) /\ defaultReadable w.

(** the level a [HandlerOptions.Level] field stands for, when it is not nil
    and points to a cell *)
Definition levelOf (o : option Leveler) (w : World) : option Level :=
  match o with
  | None => None
  | Some (LevelConst l) => Some l
  | Some (LevelVarPtr q) => heap w !! q
  end.

(** [w'] is [w] with new cells: the default logger, the records written and
    the cells of [w] are as they were *)
Definition onlyAllocates (w w' : World) : Prop :=
  defaultLogger w' = defaultLogger w /\
  stderr w' = stderr w /\
  forall q, is_Some (heap w !! q) -> heap w' !! q = heap w !! q.

(** the logger [Create] makes on the cell [p] *)
Definition loggerOn (p : loc) (opts : HandlerOptions) (jsonOutput : bool)
    (attrs : list Attr) : Logger :=
  let o := {| AddSource := AddSource opts;
              Level_ := Some (LevelVarPtr p);
              ReplaceAttr := ReplaceAttr opts |} in
  if jsonOutput then New (WithAttrs (NewJSONHandler o) attrs)
  else New (WithAttrs (NewTextHandler o) attrs).

(** the record [Fatal] hands to the logger *)
Definition fatalRecord (message : string) (args : list Attr) : Record_ :=
  {| rlevel := LevelError + 4; rmsg := message; rattrs := args |}.

(** a call of [Fatal] wrote its record and exited with status 1 *)
Definition FatalEmits (log : Logger) (message : string) (args : list Attr)
    (w : World) : Prop :=
  exists w', Fatal log message args w = Exits 1 w' /\
             stderr w' = stderr w ++ [(handler log, fatalRecord message args)].

Definition cell1 : loc := 1%positive.

Definition cellWorld (p : loc) (l : Level) : World :=
  {| heap := {[p := l]};
     defaultLogger := defaultLogger startWorld;
     stderr := [] |}.

Definition handlerAt (p : loc) (l : Level) : logHandler :=
  {| init := l; current := p |}.

(** a request with a query, a header and a body, and a world with a second
    cell, another default logger and a record already written *)
Definition busyRequest (method path : string) : Request :=
  {| Method := method; URL_Path := path; URL_RawQuery := "level=debug";
     Header := [("X-Level", ["debug"])]; Body := "debug" |}.

Definition busyWorld (p : loc) (l : Level) : World :=
  {| heap := <[p := l]> {[(p + 1)%positive := LevelDebug]};
     defaultLogger := New (NewJSONHandler (optionsAt LevelWarn));
     stderr := [(NewJSONHandler (optionsAt LevelWarn),
                 {| rlevel := LevelError; rmsg := "earlier"; rattrs := [] |})] |}.

Definition loggerOnCell (p : loc) : Logger :=
  loggerOn p (optionsAt LevelInfo) false [].

Definition anchors : list (string * Level) :=
  [("DEBUG", LevelDebug); ("INFO", LevelInfo); ("WARN", LevelWarn); ("ERROR", LevelError)].

(** The revisions of [ServeHTTP] also differ in the call that logs the new
    level; this is their shape with that call left open. *)
Definition ServeHTTP_logging (parse : string -> option Level)
    (complaint : string -> string)
    (logSet : Level -> M unit) (logReset : M unit)
    (h : logHandler) (w : ResponseWriter) (r : Request) : M ResponseWriter :=
  if String.eqb (Method r) MethodGet then
    l ← LevelVar_Level (current h);
    mret (Write w (Level_String l))
  else if String.eqb (Method r) MethodPut || String.eqb (Method r) MethodPost then
    let xs := Split (URL_Path r) "/" in
    if (length xs =? 0)%nat then
      mret (Write (WriteHeader w StatusBadRequest) usageHint)
    else
      match xs !! (length xs - 1)%nat with
      | None => panic
      | Some x =>
          match parse x with
          | None => mret (Write (WriteHeader w StatusBadRequest) (complaint x))
          | Some lvl =>
              LevelVar_Set (current h) lvl;;
              let w := WriteHeader w StatusAccepted in
              logSet lvl;;
              mret w
          end
      end
  else if String.eqb (Method r) MethodDelete then
    LevelVar_Set (current h) (init h);;
    let w := WriteHeader w StatusAccepted in
    logReset;;
    mret w
  else
    mret (WriteHeader w StatusMethodNotAllowed).

(** the calls that log the new level, by revision *)
Definition logSetAttrs (lvl : Level) : M unit :=
  LogAttrs LevelInfo "log level set" [String_ "newLevel" (Level_String lvl)].

Definition logResetAttrs (h : logHandler) : M unit :=
  LogAttrs LevelInfo "log level reset" [String_ "newLevel" (Level_String (init h))].

Definition logSetInfo (lvl : Level) : M unit :=
  slog_args.Info "log level set" [slog_args.AnyString "newLevel"; slog_args.AnyLevel lvl].

Definition logResetInfo (h : logHandler) : M unit :=
  slog_args.Info "log level reset"
    [slog_args.AnyString "newLevel"; slog_args.AnyLevel (init h)].

(** a call that at most writes one record at level info through the default
    logger, or panics having done nothing *)
Definition logsOnly (m : M unit) : Prop :=
  forall w,
    m w = Panics w \/ m w = Returns tt w \/
    exists rec, rlevel rec = LevelInfo /\
                m w = Returns tt (written (handler (defaultLogger w)) rec w).

(** store [lvl] in the cell of [h], then log with [m], then answer 202 *)
Definition setThenLog (h : logHandler) (lvl : Level) (m : M unit) (w : World)
    : Outcome Response :=
  match heap w !! current h with
  | None => Panics w
  | Some _ =>
      match m (setCell (current h) lvl w) with
      | Returns _ w' => Returns (StatusAccepted, EmptyString) w'
      | Exits status w' => Exits status w'
      | Panics w' => Panics w'
      end
  end.

(** [w'] differs from [w] in the cell of [h] and in one more record at most *)
Definition touchesOnly (h : logHandler) (w w' : World) : Prop :=
  defaultLogger w' = defaultLogger w /\
  dom (heap w') = dom (heap w) /\
  (forall q, q <> current h -> heap w' !! q = heap w !! q) /\
  (stderr w' = stderr w \/
   exists rec, rlevel rec = LevelInfo /\
               stderr w' = stderr w ++ [(handler (defaultLogger w), rec)]).

(** the four answers of the handler, and when each is given *)
Definition answers (r : Request) (w : World) (resp : Response) (w' : World) : Prop :=
  (fst resp = StatusOK /\ Method r = MethodGet /\ w' = w) \/
  (fst resp = StatusAccepted /\ snd resp = EmptyString /\
   (setsLevel r \/ Method r = MethodDelete)) \/
  (fst resp = StatusBadRequest /\ setsLevel r /\ w' = w) \/
  (fst resp = StatusMethodNotAllowed /\ snd resp = EmptyString /\
   unknownMethod r /\ w' = w).

Definition mapWorld {A} (f : World -> World) (o : Outcome A) : Outcome A :=
  match o with
  | Returns a w => Returns a (f w)
  | Exits status w => Exits status (f w)
  | Panics w => Panics (f w)
  end.

(** the world with the attributes of its records left out *)
Definition forgetAttrs (w : World) : World :=
  {| heap := heap w;
     defaultLogger := defaultLogger w;
     stderr := map (fun '(hd, rec) =>
                      (hd, {| rlevel := rlevel rec; rmsg := rmsg rec; rattrs := [] |}))
                   (stderr w) |}.

(** the cell of [h] holds a level of the catalogue or the initial level *)
Definition catalogueOrInit (h : logHandler) (w : World) : Prop :=
  exists c, heap w !! current h = Some c /\ (In c levels \/ c = init h).

Import buildinfo.

Definition vcsSetting (kv : BuildSetting) : bool := HasPrefix (SKey kv) "vcs".

Definition settingAttr (kv : BuildSetting) : Attr := String_ (SKey kv) (SValue kv).

Definition someBuild : BuildInfo :=
  {| GoVersion := "go1.22.1";
     Settings := [ {| SKey := "-buildmode"; SValue := "exe" |};
                   {| SKey := "vcs"; SValue := "git" |};
                   {| SKey := "GOOS"; SValue := "linux" |};
                   {| SKey := "vcs.revision"; SValue := "0a1b2c" |};
                   {| SKey := "vcs.modified"; SValue := "false" |} ] |}.

Definition nilOptions : HandlerOptions :=
  {| AddSource := true; Level_ := None; ReplaceAttr := None |}.

Ltac unfold_M :=
  unfold mbind, M_bind, mret, M_ret, slog.bind, slog.ret in *.

Ltac method_tests :=
  repeat match goal with
         | |- context [String.eqb ?a ?b] =>
             let v := eval vm_compute in (String.eqb a b) in
             change (String.eqb a b) with v
         end;
  cbv beta iota delta [orb].

(* ===================================================================== *)
(** ** Bytes and strings                                                   *)
(* ===================================================================== *)

Lemma code_range (c : ascii) : 0 <= code c < 256.
Proof.
  unfold code. pose proof (N_ascii_bounded c). lia.
Qed.

Lemma code_chr (n : Z) : 0 <= n < 256 -> code (chr n) = n.
Proof.
  intros Hn. unfold code, chr.
  rewrite N_ascii_embedding by lia. lia.
Qed.

Lemma chr_code (c : ascii) : chr (code c) = c.
Proof.
  unfold code, chr. rewrite N2Z.id. apply ascii_N_embedding.
Qed.

Lemma code_lowerByte (c : ascii) :
  code (lowerByte c) = if (65 <=? code c) && (code c <=? 90) then code c + 32 else code c.
Proof.
  unfold lowerByte. destruct ((65 <=? code c) && (code c <=? 90)) eqn:E; [|done].
  apply code_chr. lia.
Qed.

Lemma lowerByte_ascii (c d : ascii) :
  lowerByte c = lowerByte d -> code d < 128 -> code c < 128.
Proof.
  intros Heq Hd. apply (f_equal code) in Heq. rewrite !code_lowerByte in Heq.
  destruct ((65 <=? code c) && (code c <=? 90)) eqn:Ec,
           ((65 <=? code d) && (code d <=? 90)) eqn:Ed; lia.
Qed.

Lemma lowerByte_idem (c : ascii) : lowerByte (lowerByte c) = lowerByte c.
Proof.
  unfold lowerByte at 1. rewrite code_lowerByte.
  destruct ((65 <=? code c) && (code c <=? 90)) eqn:Ec.
  - replace ((65 <=? code c + 32) && (code c + 32 <=? 90)) with false by lia. done.
  - rewrite Ec. unfold lowerByte. by rewrite Ec.
Qed.

Lemma sameLetters_lower (s t : string) :
  sameLetters s t = true -> isASCII t = true ->
  isASCII s = true /\ mapBytes lowerByte s = mapBytes lowerByte t.
Proof.
  revert t. induction s as [|c s IH]; intros [|d t]; simpl; try done.
  intros [Hc Hs]%andb_prop [Hd Ht]%andb_prop.
  apply Ascii.eqb_eq in Hc.
  destruct (IH t Hs Ht) as [IH1 IH2].
  split.
  - apply andb_true_intro. split; [|done].
    apply Z.ltb_lt in Hd. apply Z.ltb_lt. by eapply lowerByte_ascii.
  - by rewrite Hc, IH2.
Qed.

Lemma sameLetters_refl (s : string) : sameLetters s s = true.
Proof.
  induction s as [|c s IH]; simpl; [done|].
  by rewrite Ascii.eqb_refl, IH.
Qed.

Section Strings.
Context `{UnicodeTables}.

(** on ASCII strings, equal letters up to case is what [ToLower] compares *)
Lemma sameLetters_ToLower (s t : string) :
  sameLetters s t = true -> isASCII t = true -> ToLower s = ToLower t.
Proof.
  intros Hst Ht. destruct (sameLetters_lower s t Hst Ht) as [Hs Heq].
  unfold ToLower. by rewrite Hs, Ht.
Qed.

Lemma ToLower_sameLetters (s t : string) :
  isASCII s = true -> isASCII t = true ->
  ToLower s = ToLower t -> sameLetters s t = true.
Proof.
  intros Hs Ht. unfold ToLower. rewrite Hs, Ht. clear Hs Ht.
  revert t. induction s as [|c s IH]; intros [|d t]; simpl; try done.
  intros [= Hc Hst]. rewrite Hc, Ascii.eqb_refl. by apply IH.
Qed.
End Strings.

Lemma Split_nonempty (s : string) (sep : ascii) : Split s sep <> [].
Proof.
  destruct s as [|c s]; simpl; [done|].
  destruct (Ascii.eqb c sep); [done|]. by destruct (Split s sep).
Qed.

Lemma Split_length (s : string) (sep : ascii) : (1 <= length (Split s sep))%nat.
Proof.
  pose proof (Split_nonempty s sep). destruct (Split s sep); simpl; [done|lia].
Qed.

Lemma Split_last_index (s : string) (sep : ascii) :
  Split s sep !! (length (Split s sep) - 1)%nat = last (Split s sep).
Proof.
  rewrite last_lookup. f_equal. lia.
Qed.

Lemma lastSegment_total (path : string) : is_Some (lastSegment path).
Proof.
  unfold lastSegment. pose proof (Split_nonempty path "/").
  destruct (Split path "/") as [|x xs] eqn:E; [done|].
  rewrite last_cons. destruct (last xs); eauto.
Qed.

Lemma Split_noSlash (name : string) :
  hasSlash name = false -> Split name "/" = [name].
Proof.
  induction name as [|c name IH]; simpl; [done|].
  destruct (Ascii.eqb c "/"); [done|].
  intros Hn. by rewrite (IH Hn).
Qed.

Lemma Split_app_slash (prefix rest : string) :
  Split (prefix +:+ String "/" rest) "/" = Split prefix "/" ++ Split rest "/".
Proof.
  induction prefix as [|c prefix IH]; simpl; [done|].
  destruct (Ascii.eqb c "/"); simpl in *; [by rewrite IH|].
  rewrite IH. pose proof (Split_nonempty prefix "/").
  by destruct (Split prefix "/").
Qed.

(** the segment after the last slash of a path *)
Lemma lastSegment_app (prefix name : string) :
  hasSlash name = false ->
  lastSegment (prefix +:+ String "/" name) = Some name.
Proof.
  intros Hn. unfold lastSegment.
  rewrite Split_app_slash, (Split_noSlash name Hn).
  apply last_snoc.
Qed.

(** a path that ends in a slash has an empty last segment *)
Lemma lastSegment_trailing_slash (prefix : string) :
  lastSegment (prefix +:+ "/") = Some EmptyString.
Proof.
  apply (lastSegment_app prefix EmptyString). done.
Qed.

(* ===================================================================== *)
(** ** The level registry                                                  *)
(* ===================================================================== *)

Section Registry.
Context `{UnicodeTables}.

Lemma levelMap_contents :
  levelMap = <["error" := LevelError]> (<["warn" := LevelWarn]>
               (<["info" := LevelInfo]> (<["debug" := LevelDebug]> ∅))).
Proof. reflexivity. Qed.

Lemma ParseLevel_cases (s : string) :
  ParseLevel s =
    if decide (ToLower s = "error") then (LevelError, true)
    else if decide (ToLower s = "warn") then (LevelWarn, true)
    else if decide (ToLower s = "info") then (LevelInfo, true)
    else if decide (ToLower s = "debug") then (LevelDebug, true)
    else (0, false).
Proof.
  unfold ParseLevel. rewrite levelMap_contents.
  repeat (rewrite lookup_insert; case_decide; [subst; repeat case_decide; congruence|]).
  rewrite lookup_empty. repeat case_decide; congruence.
Qed.

Lemma levels_cases (L : Level) :
  In L levels ->
  L = LevelDebug \/ L = LevelInfo \/ L = LevelWarn \/ L = LevelError.
Proof. simpl. intuition. Qed.

Lemma Level_String_catalogue (L : Level) :
  In L levels ->
  isASCII (Level_String L) = true /\ hasSlash (Level_String L) = false /\
  ParseLevel (Level_String L) = (L, true) /\
  Level_UnmarshalText (Level_String L) = Some L.
Proof.
  intros HL. destruct (levels_cases L HL) as [-> | [-> | [-> | ->]]]; by vm_compute.
Qed.

Lemma LevelsString_value : LevelsString = "DEBUG, INFO, WARN, ERROR".
Proof. reflexivity. Qed.

(** C4, as the code has it. [ParseLevel] finds every level of the catalogue
    by its name, and by its name in any capitalisation.  It finds a level for
    a string exactly when [strings.ToLower] of the string is the lower-case
    name of a catalogue level; so a string of ASCII bytes that is no
    catalogue name up to the case of its letters is not found (the zero level
    comes with false), while a string with other runes is found when the
    Unicode tables lower-case it to a catalogue name.  [ParseLevel] is a
    total function: there is no input on which it fails. *)
Theorem ParseLevel_up_to_case :
  (forall L, In L levels -> ParseLevel (Level_String L) = (L, true)) /\
  (forall L s, In L levels -> sameLetters s (Level_String L) = true ->
               ParseLevel s = (L, true)) /\
  (forall s L, ParseLevel s = (L, true) <->
               In L levels /\ ToLower s = ToLower (Level_String L)) /\
  (forall s, (forall L, In L levels -> ToLower s <> ToLower (Level_String L)) ->
             ParseLevel s = (0, false)) /\
  (forall s, isASCII s = true ->
             (forall L, In L levels -> sameLetters s (Level_String L) = false) ->
             ParseLevel s = (0, false)).
Proof.
  assert (forall s, (forall L, In L levels -> ToLower s <> ToLower (Level_String L)) ->
                    ParseLevel s = (0, false)) as Hnone.
  { intros s Hs. rewrite ParseLevel_cases.
    repeat case_decide; try done; exfalso.
    + apply (Hs LevelError); [simpl; tauto|]. by vm_compute.
    + apply (Hs LevelWarn); [simpl; tauto|]. by vm_compute.
    + apply (Hs LevelInfo); [simpl; tauto|]. by vm_compute.
    + apply (Hs LevelDebug); [simpl; tauto|]. by vm_compute. }
  split; [|split; [|split; [|split]]].
  - intros L HL. by apply Level_String_catalogue.
  - intros L s HL Hs.
    destruct (Level_String_catalogue L HL) as (Hascii & _ & Hparse & _).
    unfold ParseLevel in *.
    by rewrite (sameLetters_ToLower s (Level_String L) Hs Hascii).
  - intros s L. split.
    + rewrite ParseLevel_cases.
      repeat case_decide; intros [= <-]; (split; [simpl; tauto|]);
        solve [by vm_compute | done].
    + intros [HL Hlow].
      destruct (Level_String_catalogue L HL) as (_ & _ & Hparse & _).
      unfold ParseLevel in *. by rewrite Hlow.
  - exact Hnone.
  - intros s Hascii Hs. apply Hnone. intros L HL Hlow.
    destruct (Level_String_catalogue L HL) as (HasciiL & _).
    pose proof (ToLower_sameLetters s (Level_String L) Hascii HasciiL Hlow) as Hsame.
    rewrite (Hs L HL) in Hsame. discriminate.
Qed.

End Registry.

Lemma ParseLevel_up_to_case_witness :
  @ParseLevel noTables "WARN" = (LevelWarn, true) /\
  @ParseLevel noTables "wArN" = (LevelWarn, true) /\
  @ParseLevel noTables "warning" = (0, false) /\
  @ParseLevel dottedITables "warning" = (0, false) /\
  @ParseLevel dottedITables dottedINFO = (LevelInfo, true).
Proof.
  destruct (@ParseLevel_up_to_case noTables) as (Hname & Hcase & _ & _ & Hascii).
  destruct (@ParseLevel_up_to_case dottedITables) as (_ & _ & Hiff & _ & Hascii').
  assert (forall L, In L levels -> sameLetters "warning" (Level_String L) = false)
    as Hwarning.
  { intros L HL. destruct (levels_cases L HL) as [-> | [-> | [-> | ->]]]; reflexivity. }
  split; [|split; [|split; [|split]]].
  - apply (Hname LevelWarn). simpl. tauto.
  - apply (Hcase LevelWarn); [simpl; tauto | reflexivity].
  - apply Hascii; [reflexivity | exact Hwarning].
  - apply Hascii'; [reflexivity | exact Hwarning].
  - apply Hiff. split; [simpl; tauto | reflexivity].
Defined.

(** C4, as it is stated, fails.  The string of U+0130 and N, F, O is no
    catalogue name in any capitalisation: its first two bytes are no letter
    i.  Go lower-cases U+0130 to i, so [strings.ToLower] gives "info" and
    [ParseLevel] finds the level info. *)
Lemma ParseLevel_dotted_I_counterexample :
  (forall L, In L levels -> sameLetters dottedINFO (Level_String L) = false) /\
  @ToLower dottedITables dottedINFO = "info" /\
  @ParseLevel dottedITables dottedINFO = (LevelInfo, true) /\
  snd (@ParseLevel dottedITables dottedINFO) <> false.
Proof.
  split; [|split; [|split]].
  - intros L HL. destruct (levels_cases L HL) as [-> | [-> | [-> | ->]]]; reflexivity.
  - reflexivity.
  - reflexivity.
  - discriminate.
Qed.

(** "DEBUG", "debug" and "Debug" parse to the same level *)
Example ParseLevel_DEBUG_debug_Debug :
  @ParseLevel noTables "DEBUG" = (LevelDebug, true) /\
  @ParseLevel noTables "debug" = (LevelDebug, true) /\
  @ParseLevel noTables "Debug" = (LevelDebug, true) /\
  @ParseLevel noTables "verbose" = (0, false) /\
  @ParseLevel noTables "" = (0, false).
Proof. by vm_compute. Qed.

(* ===================================================================== *)
(** ** The cell, the default logger, and one request                       *)
(* ===================================================================== *)

Lemma LevelVar_Set_ok (p : loc) (l c : Level) (w : World) :
  heap w !! p = Some c -> LevelVar_Set p l w = Returns tt (setCell p l w).
Proof.
  intros Hp. unfold LevelVar_Set. by rewrite Hp.
Qed.

Lemma LevelVar_Set_nil (p : loc) (l : Level) (w : World) :
  heap w !! p = None -> LevelVar_Set p l w = Panics w.
Proof.
  intros Hp. unfold LevelVar_Set. by rewrite Hp.
Qed.

Lemma Logger_Log_ok (lg : Logger) (l : Level) (msg : string) (args : list Attr)
    (w : World) :
  is_Some (threshold (handler lg) w) ->
  Logger_Log lg l msg args w = Returns tt (logged lg l msg args w).
Proof.
  intros [t Ht]. unfold logged. rewrite Ht.
  unfold threshold in Ht. unfold Logger_Log, Enabled, slog.bind, slog.ret.
  destruct (Level_ (options (handler lg))) as [[c|p]|]; simpl in *.
  - inversion Ht; subst. by destruct (t <=? l).
  - unfold LevelVar_Level. rewrite Ht. by destruct (t <=? l).
  - inversion Ht; subst. by destruct (LevelInfo <=? l).
Qed.

Lemma LogAttrs_ok (l : Level) (msg : string) (attrs : list Attr) (w : World) :
  defaultReadable w ->
  LogAttrs l msg attrs w = Returns tt (logged (defaultLogger w) l msg attrs w).
Proof.
  intros Hw. unfold LogAttrs. by apply Logger_Log_ok.
Qed.

Lemma heap_logged lg l msg args w : heap (logged lg l msg args w) = heap w.
Proof.
  unfold logged. destruct (threshold (handler lg) w) as [t|]; [|done].
  by destruct (t <=? l).
Qed.

Lemma defaultLogger_logged lg l msg args w :
  defaultLogger (logged lg l msg args w) = defaultLogger w.
Proof.
  unfold logged. destruct (threshold (handler lg) w) as [t|]; [|done].
  by destruct (t <=? l).
Qed.

Lemma threshold_heap (h : Handler) (w w' : World) :
  dom (heap w') = dom (heap w) ->
  is_Some (threshold h w) -> is_Some (threshold h w').
Proof.
  unfold threshold. intros Hdom.
  destruct (Level_ (options h)) as [[c|p]|]; try done.
  rewrite <- !elem_of_dom. by rewrite Hdom.
Qed.

Lemma defaultReadable_setCell (p : loc) (l : Level) (w : World) :
  is_Some (heap w !! p) -> defaultReadable w -> defaultReadable (setCell p l w).
Proof.
  intros Hp. unfold defaultReadable. simpl.
  apply threshold_heap. simpl. rewrite dom_insert_L.
  apply subseteq_union_1_L, singleton_subseteq_l. by apply elem_of_dom.
Qed.

Lemma defaultReadable_logged lg l msg args w :
  defaultReadable w -> defaultReadable (logged lg l msg args w).
Proof.
  unfold defaultReadable. rewrite defaultLogger_logged.
  apply threshold_heap. by rewrite heap_logged.
Qed.

Section Requests.
Context `{UnicodeTables}.

Lemma part_000_shape (h : logHandler) (w : ResponseWriter) (r : Request) :
  part_000.ServeHTTP h w r = ServeHTTP_with parseCatalogue complaintCatalogue h w r.
Proof.
  unfold part_000.ServeHTTP, ServeHTTP_with, parseCatalogue, complaintCatalogue.
  destruct (String.eqb (Method r) MethodGet); [done|].
  destruct (String.eqb (Method r) MethodPut || String.eqb (Method r) MethodPost); [|done].
  destruct (length (Split (URL_Path r) "/") =? 0)%nat; [done|].
  destruct (Split (URL_Path r) "/" !! (length (Split (URL_Path r) "/") - 1)%nat)
    as [x|]; [|done].
  by destruct (ParseLevel x) as [lvl []].
Qed.

Lemma log_go_shape (h : logHandler) (w : ResponseWriter) (r : Request) :
  log_go.ServeHTTP h w r = ServeHTTP_with Level_UnmarshalText complaintPlain h w r.
Proof. reflexivity. Qed.

Lemma serve_part_000 (h : logHandler) (r : Request) :
  serve (part_000.ServeHTTP h) r =
  serve (ServeHTTP_with parseCatalogue complaintCatalogue h) r.
Proof. unfold serve. by rewrite part_000_shape. Qed.

Lemma serve_log_go (h : logHandler) (r : Request) :
  serve (log_go.ServeHTTP h) r =
  serve (ServeHTTP_with Level_UnmarshalText complaintPlain h) r.
Proof. reflexivity. Qed.

Section Shape.
Variable parse : string -> option Level.
Variable complaint : string -> string.
Variable h : logHandler.

Let handler := ServeHTTP_with parse complaint h.

Lemma serve_GET (r : Request) (w : World) (c : Level) :
  Method r = MethodGet -> heap w !! current h = Some c ->
  serve handler r w = Returns (StatusOK, Level_String c) w.
Proof.
  intros Hm Hc. unfold serve, handler, ServeHTTP_with. rewrite Hm.
  method_tests. unfold_M. unfold LevelVar_Level. by rewrite Hc.
Qed.

Lemma serve_GET_nil (r : Request) (w : World) :
  Method r = MethodGet -> heap w !! current h = None ->
  serve handler r w = Panics w.
Proof.
  intros Hm Hc. unfold serve, handler, ServeHTTP_with. rewrite Hm.
  method_tests. unfold_M. unfold LevelVar_Level. by rewrite Hc.
Qed.

Lemma serve_DELETE (r : Request) (w : World) (c : Level) :
  Method r = MethodDelete -> heap w !! current h = Some c ->
  defaultReadable w ->
  serve handler r w =
    Returns (StatusAccepted, EmptyString)
      (logged (defaultLogger w) LevelInfo "log level reset"
         [String_ "newLevel" (Level_String (init h))]
         (setCell (current h) (init h) w)).
Proof.
  intros Hm Hc Hw. unfold serve, handler, ServeHTTP_with. rewrite Hm.
  method_tests. unfold_M.
  rewrite (LevelVar_Set_ok _ _ c) by done.
  rewrite LogAttrs_ok by (apply defaultReadable_setCell; eauto).
  done.
Qed.

Lemma serve_DELETE_nil (r : Request) (w : World) :
  Method r = MethodDelete -> heap w !! current h = None ->
  serve handler r w = Panics w.
Proof.
  intros Hm Hc. unfold serve, handler, ServeHTTP_with. rewrite Hm.
  method_tests. unfold_M. by rewrite LevelVar_Set_nil.
Qed.

Lemma serve_unknownMethod (r : Request) (w : World) :
  unknownMethod r ->
  serve handler r w = Returns (StatusMethodNotAllowed, EmptyString) w.
Proof.
  intros (Hg & Hp & Ho & Hd). unfold serve, handler, ServeHTTP_with.
  apply String.eqb_neq in Hg, Hp, Ho, Hd. by rewrite Hg, Hp, Ho, Hd.
Qed.

Lemma serve_set_segment (r : Request) :
  setsLevel r ->
  exists x, lastSegment (URL_Path r) = Some x /\
    handler newResponseWriter r =
      match parse x with
      | None => mret (Write (WriteHeader newResponseWriter StatusBadRequest) (complaint x))
      | Some lvl =>
          LevelVar_Set (current h) lvl;;
          LogAttrs LevelInfo "log level set"
            [String_ "newLevel" (Level_String lvl)];;
          mret (WriteHeader newResponseWriter StatusAccepted)
      end.
Proof.
  intros Hm. destruct (lastSegment_total (URL_Path r)) as [x Hx].
  exists x. split; [done|].
  unfold handler, ServeHTTP_with. rewrite Split_last_index.
  unfold lastSegment in Hx. rewrite Hx.
  pose proof (Split_length (URL_Path r) "/") as Hlen.
  replace (length (Split (URL_Path r) "/") =? 0)%nat with false
    by (symmetry; apply Nat.eqb_neq; lia).
  destruct Hm as [-> | ->]; by method_tests.
Qed.

Lemma serve_set_bad (r : Request) (w : World) (x : string) :
  setsLevel r -> lastSegment (URL_Path r) = Some x -> parse x = None ->
  serve handler r w = Returns (StatusBadRequest, complaint x) w.
Proof.
  intros Hm Hx Hp. destruct (serve_set_segment r Hm) as (x' & Hx' & Heq).
  rewrite Hx in Hx'. injection Hx' as <-.
  unfold serve. rewrite Heq, Hp. done.
Qed.

Lemma serve_set_ok (r : Request) (w : World) (x : string) (lvl c : Level) :
  setsLevel r -> lastSegment (URL_Path r) = Some x -> parse x = Some lvl ->
  heap w !! current h = Some c -> defaultReadable w ->
  serve handler r w =
    Returns (StatusAccepted, EmptyString)
      (logged (defaultLogger w) LevelInfo "log level set"
         [String_ "newLevel" (Level_String lvl)]
         (setCell (current h) lvl w)).
Proof.
  intros Hm Hx Hp Hc Hw. destruct (serve_set_segment r Hm) as (x' & Hx' & Heq).
  rewrite Hx in Hx'. injection Hx' as <-.
  unfold serve. rewrite Heq, Hp. unfold_M.
  rewrite (LevelVar_Set_ok _ _ c) by done.
  rewrite LogAttrs_ok by (apply defaultReadable_setCell; eauto).
  done.
Qed.

Lemma serve_set_nil (r : Request) (w : World) (x : string) (lvl : Level) :
  setsLevel r -> lastSegment (URL_Path r) = Some x -> parse x = Some lvl ->
  heap w !! current h = None ->
  serve handler r w = Panics w.
Proof.
  intros Hm Hx Hp Hc. destruct (serve_set_segment r Hm) as (x' & Hx' & Heq).
  rewrite Hx in Hx'. injection Hx' as <-.
  unfold serve. rewrite Heq, Hp. unfold_M.
  by rewrite LevelVar_Set_nil.
Qed.

End Shape.
End Requests.

(* ===================================================================== *)
(** ** Setting, reading and resetting the level over HTTP                  *)
(* ===================================================================== *)

Lemma ready_logged_setCell h lg l lvl msg args w :
  ready h w ->
  ready h (logged lg l msg args (setCell (current h) lvl w)).
Proof.
  intros [Hc Hw]. split.
  - rewrite heap_logged. simpl. rewrite lookup_insert_eq. eauto.
  - by apply defaultReadable_logged, defaultReadable_setCell.
Qed.

Section Control.
Context `{UnicodeTables}.

Section Shape.
Variable parse : string -> option Level.
Variable complaint : string -> string.
Variable h : logHandler.

Let handler := ServeHTTP_with parse complaint h.

Lemma Method_cases (r : Request) :
  Method r = MethodGet \/ setsLevel r \/ Method r = MethodDelete \/ unknownMethod r.
Proof.
  unfold setsLevel, unknownMethod.
  destruct (decide (Method r = MethodGet)); [tauto|].
  destruct (decide (Method r = MethodPut)); [tauto|].
  destruct (decide (Method r = MethodPost)); [tauto|].
  destruct (decide (Method r = MethodDelete)); tauto.
Qed.

(** a request on a ready handler returns, and leaves the handler ready *)
Lemma serve_ready (r : Request) (w : World) :
  ready h w ->
  exists resp w', serve handler r w = Returns resp w' /\ ready h w'.
Proof.
  intros Hr. pose proof Hr as [[c Hc] Hw].
  destruct (Method_cases r) as [Hm | [Hm | [Hm | Hm]]].
  - eexists _, _. split; [by apply serve_GET|done].
  - destruct (serve_set_segment parse complaint h r Hm) as (x & Hx & _).
    destruct (parse x) as [lvl|] eqn:Hp.
    + eexists _, _. split; [by eapply serve_set_ok|].
      by apply ready_logged_setCell.
    + eexists _, _. split; [by eapply serve_set_bad|done].
  - eexists _, _. split; [by eapply serve_DELETE|].
    by apply ready_logged_setCell.
  - eexists _, _. split; [by apply serve_unknownMethod|done].
Qed.

Lemma serveAll_ready (rs : list Request) (w : World) :
  ready h w ->
  exists resps w', serveAll handler rs w = Returns resps w' /\ ready h w'.
Proof.
  revert w. induction rs as [|r rs IH]; intros w Hr.
  - by exists [], w.
  - destruct (serve_ready r w Hr) as (resp & w1 & Hs & Hr1).
    destruct (IH w1 Hr1) as (resps & w2 & Hall & Hr2).
    exists (resp :: resps), w2. split; [|done].
    simpl. unfold_M. by rewrite Hs, Hall.
Qed.

Lemma set_then_get (X : Level) (x : string) (r g : Request) (w : World) :
  parse x = Some X ->
  setsLevel r -> lastSegment (URL_Path r) = Some x ->
  Method g = MethodGet -> ready h w ->
  exists w',
    serve handler r w = Returns (StatusAccepted, EmptyString) w' /\
    heap w' !! current h = Some X /\
    serve handler g w' = Returns (StatusOK, Level_String X) w'.
Proof.
  intros Hp Hm Hx Hg [[c Hc] Hw].
  assert (heap (logged (defaultLogger w) LevelInfo "log level set"
                  [String_ "newLevel" (Level_String X)]
                  (setCell (current h) X w)) !! current h = Some X) as Hcell.
  { rewrite heap_logged. simpl. by rewrite lookup_insert_eq. }
  eexists. split; [by eapply serve_set_ok|]. split; [done|].
  by apply serve_GET.
Qed.

Lemma reset_twice (rs : list Request) (d1 d2 : Request) (w : World) :
  Method d1 = MethodDelete -> Method d2 = MethodDelete -> ready h w ->
  exists resps w1 w2 w3,
    serveAll handler rs w = Returns resps w1 /\
    serve handler d1 w1 = Returns (StatusAccepted, EmptyString) w2 /\
    heap w2 !! current h = Some (init h) /\
    serve handler d2 w2 = Returns (StatusAccepted, EmptyString) w3 /\
    heap w3 = heap w2.
Proof.
  intros Hd1 Hd2 Hr.
  destruct (serveAll_ready rs w Hr) as (resps & w1 & Hall & Hr1).
  pose proof Hr1 as [[c Hc] Hw].
  pose proof (ready_logged_setCell h (defaultLogger w1) LevelInfo (init h)
                "log level reset" [String_ "newLevel" (Level_String (init h))]
                w1 Hr1) as Hr2.
  set (w2 := logged (defaultLogger w1) LevelInfo "log level reset"
               [String_ "newLevel" (Level_String (init h))]
               (setCell (current h) (init h) w1)) in *.
  assert (heap w2 !! current h = Some (init h)) as Hc2.
  { unfold w2. rewrite heap_logged. simpl. by rewrite lookup_insert_eq. }
  destruct Hr2 as [_ Hw2].
  eexists resps, w1, w2, _. split; [done|].
  split; [by eapply serve_DELETE|]. split; [done|].
  split; [by eapply serve_DELETE|].
  rewrite heap_logged. simpl. by apply insert_id.
Qed.

End Shape.

Lemma serveAll_part_000 (h : logHandler) (rs : list Request) :
  serveAll (part_000.ServeHTTP h) rs =
  serveAll (ServeHTTP_with parseCatalogue complaintCatalogue h) rs.
Proof.
  induction rs as [|r rs IH]; simpl; [done|].
  by rewrite serve_part_000, IH.
Qed.

(** C1. A PUT or POST whose last path segment is the name of a catalogue
    level [X] is answered 202 with an empty body and leaves [X] in the
    cell; a GET that follows is answered 200 with the name of [X].  Both
    revisions of the handler. *)
Theorem set_then_get_roundtrip (X : Level) (h : logHandler) (r g : Request)
    (w : World) :
  In X levels ->
  setsLevel r -> lastSegment (URL_Path r) = Some (Level_String X) ->
  Method g = MethodGet -> ready h w ->
  (exists w',
      serve (part_000.ServeHTTP h) r w = Returns (StatusAccepted, EmptyString) w' /\
      heap w' !! current h = Some X /\
      serve (part_000.ServeHTTP h) g w' = Returns (StatusOK, Level_String X) w') /\
  (exists w',
      serve (log_go.ServeHTTP h) r w = Returns (StatusAccepted, EmptyString) w' /\
      heap w' !! current h = Some X /\
      serve (log_go.ServeHTTP h) g w' = Returns (StatusOK, Level_String X) w').
Proof.
  intros HX Hm Hx Hg Hr.
  destruct (Level_String_catalogue X HX) as (_ & _ & Hparse & Hunm).
  split.
  - rewrite !serve_part_000. eapply set_then_get; eauto.
    unfold parseCatalogue. by rewrite Hparse.
  - rewrite !serve_log_go. eapply set_then_get; eauto.
Qed.

(** C2. A PUT or POST whose last path segment does not parse is answered
    400 with a body that quotes the segment (and, in the catalogue
    revision, lists the catalogue); the world it returns is the world it
    was called in: the cell keeps its value and no record is written. *)
Theorem unparsable_level_rejected (h : logHandler) (r : Request) (w : World)
    (x : string) :
  setsLevel r -> lastSegment (URL_Path r) = Some x ->
  (snd (ParseLevel x) = false ->
   serve (part_000.ServeHTTP h) r w =
     Returns (StatusBadRequest,
              "unknown log level " +:+ Quote x +:+
              ", specify one of " +:+ LevelsString) w) /\
  (Level_UnmarshalText x = None ->
   serve (log_go.ServeHTTP h) r w =
     Returns (StatusBadRequest, "unknown log level " +:+ Quote x) w).
Proof.
  intros Hm Hx. split; intros Hp.
  - rewrite serve_part_000.
    apply (serve_set_bad parseCatalogue complaintCatalogue h r w x Hm Hx).
    unfold parseCatalogue. destruct (ParseLevel x) as [lvl ok].
    simpl in Hp. by subst ok.
  - rewrite serve_log_go.
    by apply (serve_set_bad Level_UnmarshalText complaintPlain h r w x Hm Hx).
Qed.

(** C3. A DELETE is answered 202 with an empty body and leaves the initial
    level in the cell, whatever requests were served before it; a second
    DELETE is answered the same and leaves the cells as the first did. *)
Theorem DELETE_resets_to_init (h : logHandler) (rs : list Request)
    (d1 d2 : Request) (w : World) :
  Method d1 = MethodDelete -> Method d2 = MethodDelete -> ready h w ->
  (exists resps w1 w2 w3,
      serveAll (part_000.ServeHTTP h) rs w = Returns resps w1 /\
      serve (part_000.ServeHTTP h) d1 w1 = Returns (StatusAccepted, EmptyString) w2 /\
      heap w2 !! current h = Some (init h) /\
      serve (part_000.ServeHTTP h) d2 w2 = Returns (StatusAccepted, EmptyString) w3 /\
      heap w3 = heap w2) /\
  (exists resps w1 w2 w3,
      serveAll (log_go.ServeHTTP h) rs w = Returns resps w1 /\
      serve (log_go.ServeHTTP h) d1 w1 = Returns (StatusAccepted, EmptyString) w2 /\
      heap w2 !! current h = Some (init h) /\
      serve (log_go.ServeHTTP h) d2 w2 = Returns (StatusAccepted, EmptyString) w3 /\
      heap w3 = heap w2).
Proof.
  intros Hd1 Hd2 Hr. split.
  - rewrite serveAll_part_000, !serve_part_000. by apply reset_twice.
  - rewrite !serve_log_go. by apply reset_twice.
Qed.

End Control.

(** *** The properties above on concrete requests *)

Lemma ready_cellWorld (p : loc) (l i : Level) : ready (handlerAt p i) (cellWorld p l).
Proof.
  split.
  - exists l. apply lookup_singleton_eq.
  - by exists LevelInfo.
Defined.

Lemma set_then_get_roundtrip_witness :
  (exists w',
      serve (@part_000.ServeHTTP noTables (handlerAt cell1 LevelInfo))
        (request "PUT" "/log/ERROR") (cellWorld cell1 LevelInfo)
        = Returns (StatusAccepted, EmptyString) w' /\
      heap w' !! cell1 = Some LevelError /\
      serve (@part_000.ServeHTTP noTables (handlerAt cell1 LevelInfo))
        (request "GET" "/log") w' = Returns (StatusOK, "ERROR") w') /\
  (exists w',
      serve (@log_go.ServeHTTP noTables (handlerAt cell1 LevelInfo))
        (request "PUT" "/log/ERROR") (cellWorld cell1 LevelInfo)
        = Returns (StatusAccepted, EmptyString) w' /\
      heap w' !! cell1 = Some LevelError /\
      serve (@log_go.ServeHTTP noTables (handlerAt cell1 LevelInfo))
        (request "GET" "/log") w' = Returns (StatusOK, "ERROR") w').
Proof.
  apply (@set_then_get_roundtrip noTables LevelError (handlerAt cell1 LevelInfo)
           (request "PUT" "/log/ERROR") (request "GET" "/log")
           (cellWorld cell1 LevelInfo)).
  - simpl. tauto.
  - left. reflexivity.
  - reflexivity.
  - reflexivity.
  - apply ready_cellWorld.
Defined.

Lemma unparsable_level_rejected_witness :
  serve (@part_000.ServeHTTP noTables (handlerAt cell1 LevelInfo))
    (request "PUT" "/log/bogus") (cellWorld cell1 LevelWarn)
  = Returns (StatusBadRequest,
             "unknown log level " +:+ String quoteChar ("bogus" +:+
               String quoteChar ", specify one of DEBUG, INFO, WARN, ERROR"))
      (cellWorld cell1 LevelWarn) /\
  serve (@log_go.ServeHTTP noTables (handlerAt cell1 LevelInfo))
    (request "POST" "/log/bogus") (cellWorld cell1 LevelWarn)
  = Returns (StatusBadRequest,
             "unknown log level " +:+ String quoteChar ("bogus" +:+ String quoteChar EmptyString))
      (cellWorld cell1 LevelWarn).
Proof.
  split.
  - apply (@unparsable_level_rejected noTables (handlerAt cell1 LevelInfo)
             (request "PUT" "/log/bogus") (cellWorld cell1 LevelWarn) "bogus");
      [left; reflexivity | reflexivity | reflexivity].
  - apply (@unparsable_level_rejected noTables (handlerAt cell1 LevelInfo)
             (request "POST" "/log/bogus") (cellWorld cell1 LevelWarn) "bogus");
      [right; reflexivity | reflexivity | reflexivity].
Defined.

Lemma DELETE_resets_to_init_witness :
  (exists resps w1 w2 w3,
      serveAll (@part_000.ServeHTTP noTables (handlerAt cell1 LevelInfo))
        [request "PUT" "/log/error"; request "POST" "/log/debug"]
        (cellWorld cell1 LevelInfo) = Returns resps w1 /\
      serve (@part_000.ServeHTTP noTables (handlerAt cell1 LevelInfo))
        (request "DELETE" "/log") w1 = Returns (StatusAccepted, EmptyString) w2 /\
      heap w2 !! cell1 = Some LevelInfo /\
      serve (@part_000.ServeHTTP noTables (handlerAt cell1 LevelInfo))
        (request "DELETE" "/log") w2 = Returns (StatusAccepted, EmptyString) w3 /\
      heap w3 = heap w2) /\
  (exists resps w1 w2 w3,
      serveAll (@log_go.ServeHTTP noTables (handlerAt cell1 LevelInfo))
        [request "PUT" "/log/error"; request "POST" "/log/debug"]
        (cellWorld cell1 LevelInfo) = Returns resps w1 /\
      serve (@log_go.ServeHTTP noTables (handlerAt cell1 LevelInfo))
        (request "DELETE" "/log") w1 = Returns (StatusAccepted, EmptyString) w2 /\
      heap w2 !! cell1 = Some LevelInfo /\
      serve (@log_go.ServeHTTP noTables (handlerAt cell1 LevelInfo))
        (request "DELETE" "/log") w2 = Returns (StatusAccepted, EmptyString) w3 /\
      heap w3 = heap w2).
Proof.
  apply (@DELETE_resets_to_init noTables (handlerAt cell1 LevelInfo)
           [request "PUT" "/log/error"; request "POST" "/log/debug"]
           (request "DELETE" "/log") (request "DELETE" "/log")
           (cellWorld cell1 LevelInfo)).
  - reflexivity.
  - reflexivity.
  - apply ready_cellWorld.
Defined.

(* ===================================================================== *)
(** ** Paths without a level, and what a response depends on               *)
(* ===================================================================== *)

Lemma Level_String_not_usageHint (c : Level) : Level_String c <> usageHint.
Proof.
  unfold Level_String, usageHint.
  repeat match goal with
         | |- context [if ?b then _ else _] => destruct b
         end; discriminate.
Qed.

Section Dispatch.
Context `{UnicodeTables}.

Lemma complaintCatalogue_not_usageHint (x : string) :
  complaintCatalogue x <> usageHint.
Proof. discriminate. Qed.

Lemma complaintPlain_not_usageHint (x : string) :
  complaintPlain x <> usageHint.
Proof. discriminate. Qed.

Section Shape.
Variable parse : string -> option Level.
Variable complaint : string -> string.
Variable h : logHandler.
Hypothesis complaint_not_usageHint : forall x, complaint x <> usageHint.

Let handler := ServeHTTP_with parse complaint h.

(** no response carries the usage hint *)
Lemma serve_never_usageHint (r : Request) (w w' : World) (resp : Response) :
  serve handler r w = Returns resp w' -> snd resp <> usageHint.
Proof.
  unfold handler.
  destruct (Method_cases r) as [Hm | [Hm | [Hm | Hm]]].
  - destruct (heap w !! current h) as [c|] eqn:Hc.
    + rewrite (serve_GET _ _ _ _ _ c Hm Hc). intros [= <- _]. simpl.
      apply Level_String_not_usageHint.
    + by rewrite (serve_GET_nil _ _ _ _ _ Hm Hc).
  - destruct (serve_set_segment parse complaint h r Hm) as (x & Hx & Heq).
    unfold serve. rewrite Heq.
    destruct (parse x) as [lvl|]; unfold_M.
    + destruct (LevelVar_Set (current h) lvl w) as [[] w1| |]; try done.
      destruct (LogAttrs _ _ _ w1) as [[] w2| |]; try done.
      by intros [= <- _].
    + intros [= <- _]. simpl. apply complaint_not_usageHint.
  - unfold serve, ServeHTTP_with. rewrite Hm. method_tests. unfold_M.
    destruct (LevelVar_Set (current h) (init h) w) as [[] w1| |]; try done.
    destruct (LogAttrs _ _ _ w1) as [[] w2| |]; try done.
    by intros [= <- _].
  - rewrite (serve_unknownMethod _ _ _ _ _ Hm). by intros [= <- _].
Qed.

(** the response and the cell depend on the method, the path and the cell *)
Lemma serve_depends_on (r1 r2 : Request) (w1 w2 : World) :
  Method r1 = Method r2 -> URL_Path r1 = URL_Path r2 ->
  heap w1 !! current h = heap w2 !! current h ->
  defaultReadable w1 -> defaultReadable w2 ->
  result (serve handler r1 w1) = result (serve handler r2 w2) /\
  heap (world (serve handler r1 w1)) !! current h =
    heap (world (serve handler r2 w2)) !! current h.
Proof.
  unfold handler. intros Hmeth Hpath Hcell Hw1 Hw2.
  destruct (Method_cases r1) as [Hm | [Hm | [Hm | Hm]]].
  - pose proof Hm as Hm2. rewrite Hmeth in Hm2.
    destruct (heap w1 !! current h) as [c|] eqn:Hc; symmetry in Hcell.
    + rewrite (serve_GET _ _ _ _ _ c Hm Hc), (serve_GET _ _ _ _ _ c Hm2 Hcell).
      simpl. split; congruence.
    + rewrite (serve_GET_nil _ _ _ _ _ Hm Hc), (serve_GET_nil _ _ _ _ _ Hm2 Hcell).
      simpl. split; congruence.
  - assert (setsLevel r2) as Hm2 by (unfold setsLevel in *; by rewrite <- Hmeth).
    destruct (lastSegment_total (URL_Path r1)) as [x Hx].
    pose proof Hx as Hx2. rewrite Hpath in Hx2.
    destruct (parse x) as [lvl|] eqn:Hp.
    + destruct (heap w1 !! current h) as [c|] eqn:Hc; symmetry in Hcell.
      * rewrite (serve_set_ok _ _ _ _ _ x lvl c Hm Hx Hp Hc Hw1),
                (serve_set_ok _ _ _ _ _ x lvl c Hm2 Hx2 Hp Hcell Hw2).
        simpl. rewrite !heap_logged. simpl. by rewrite !lookup_insert_eq.
      * rewrite (serve_set_nil _ _ _ _ _ x lvl Hm Hx Hp Hc),
                (serve_set_nil _ _ _ _ _ x lvl Hm2 Hx2 Hp Hcell).
        simpl. split; congruence.
    + rewrite (serve_set_bad _ _ _ _ _ x Hm Hx Hp),
              (serve_set_bad _ _ _ _ _ x Hm2 Hx2 Hp).
      simpl. split; congruence.
  - pose proof Hm as Hm2. rewrite Hmeth in Hm2.
    destruct (heap w1 !! current h) as [c|] eqn:Hc; symmetry in Hcell.
    + rewrite (serve_DELETE _ _ _ _ _ c Hm Hc Hw1),
              (serve_DELETE _ _ _ _ _ c Hm2 Hcell Hw2).
      simpl. rewrite !heap_logged. simpl. by rewrite !lookup_insert_eq.
    + rewrite (serve_DELETE_nil _ _ _ _ _ Hm Hc),
              (serve_DELETE_nil _ _ _ _ _ Hm2 Hcell).
      simpl. split; congruence.
  - assert (unknownMethod r2) as Hm2 by (unfold unknownMethod in *; by rewrite <- Hmeth).
    rewrite (serve_unknownMethod _ _ _ _ _ Hm), (serve_unknownMethod _ _ _ _ _ Hm2).
    simpl. split; congruence.
Qed.

End Shape.

(** C5. Splitting a path on '/' yields at least one segment, and no request
    is ever answered with the usage hint of the no-segment branch.  A PUT or
    POST on a path that ends in '/' has the empty string as its last segment,
    which does not parse: it is answered 400 with the complaint about an
    unknown level (the one an unrecognised name gets), in the world it was
    called in. *)
Theorem empty_trailing_segment :
  (forall path, (1 <= length (Split path "/"))%nat) /\
  (forall h r w resp w',
      serve (part_000.ServeHTTP h) r w = Returns resp w' \/
      serve (log_go.ServeHTTP h) r w = Returns resp w' ->
      snd resp <> usageHint) /\
  (forall h r w prefix,
      setsLevel r -> URL_Path r = prefix +:+ "/" ->
      serve (part_000.ServeHTTP h) r w =
        Returns (StatusBadRequest,
                 "unknown log level " +:+ Quote EmptyString +:+
                 ", specify one of " +:+ LevelsString) w /\
      serve (log_go.ServeHTTP h) r w =
        Returns (StatusBadRequest, "unknown log level " +:+ Quote EmptyString) w).
Proof.
  split; [|split].
  - intros path. apply Split_length.
  - intros h r w resp w' [Hs | Hs].
    + rewrite serve_part_000 in Hs.
      eapply serve_never_usageHint; [apply complaintCatalogue_not_usageHint | exact Hs].
    + rewrite serve_log_go in Hs.
      eapply serve_never_usageHint; [apply complaintPlain_not_usageHint | exact Hs].
  - intros h r w prefix Hm Hpath.
    assert (lastSegment (URL_Path r) = Some EmptyString) as Hx
      by (rewrite Hpath; apply lastSegment_trailing_slash).
    split.
    + rewrite serve_part_000.
      by apply (serve_set_bad parseCatalogue complaintCatalogue h r w EmptyString).
    + rewrite serve_log_go.
      by apply (serve_set_bad Level_UnmarshalText complaintPlain h r w EmptyString).
Qed.

(** C6. Two requests with the same method and the same path, served in worlds
    whose cell holds the same value, get the same status and body and leave
    the same value in the cell, whatever their query, headers and body are
    and whatever else the worlds hold.  A request of a method other than
    GET, PUT, POST and DELETE is answered 405 with an empty body, in the
    world it was called in. *)
Theorem serve_deterministic (h : logHandler) (r1 r2 : Request) (w1 w2 : World) :
  Method r1 = Method r2 -> URL_Path r1 = URL_Path r2 ->
  heap w1 !! current h = heap w2 !! current h ->
  defaultReadable w1 -> defaultReadable w2 ->
  (result (serve (part_000.ServeHTTP h) r1 w1) = result (serve (part_000.ServeHTTP h) r2 w2) /\
   heap (world (serve (part_000.ServeHTTP h) r1 w1)) !! current h =
     heap (world (serve (part_000.ServeHTTP h) r2 w2)) !! current h) /\
  (result (serve (log_go.ServeHTTP h) r1 w1) = result (serve (log_go.ServeHTTP h) r2 w2) /\
   heap (world (serve (log_go.ServeHTTP h) r1 w1)) !! current h =
     heap (world (serve (log_go.ServeHTTP h) r2 w2)) !! current h) /\
  (unknownMethod r1 ->
   serve (part_000.ServeHTTP h) r1 w1 = Returns (StatusMethodNotAllowed, EmptyString) w1 /\
   serve (log_go.ServeHTTP h) r1 w1 = Returns (StatusMethodNotAllowed, EmptyString) w1).
Proof.
  intros Hmeth Hpath Hcell Hw1 Hw2. split; [|split].
  - rewrite !serve_part_000. by apply serve_depends_on.
  - rewrite !serve_log_go. by apply serve_depends_on.
  - intros Hm. rewrite serve_part_000, serve_log_go.
    split; by apply serve_unknownMethod.
Qed.

End Dispatch.

(** Scenario F: PUT /log/ *)
Lemma empty_trailing_segment_witness :
  (1 <= length (Split "/log/" "/"))%nat /\
  serve (@part_000.ServeHTTP noTables (handlerAt cell1 LevelInfo))
    (request "PUT" "/log/") (cellWorld cell1 LevelWarn)
  = Returns (StatusBadRequest,
             "unknown log level " +:+ String quoteChar (String quoteChar
               ", specify one of DEBUG, INFO, WARN, ERROR"))
      (cellWorld cell1 LevelWarn) /\
  serve (@log_go.ServeHTTP noTables (handlerAt cell1 LevelInfo))
    (request "PUT" "/log/") (cellWorld cell1 LevelWarn)
  = Returns (StatusBadRequest,
             "unknown log level " +:+ String quoteChar (String quoteChar EmptyString))
      (cellWorld cell1 LevelWarn).
Proof.
  destruct (@empty_trailing_segment noTables) as (Hlen & _ & Hslash).
  split; [apply Hlen|].
  apply (Hslash (handlerAt cell1 LevelInfo) (request "PUT" "/log/")
           (cellWorld cell1 LevelWarn) "/log"); [left; reflexivity | reflexivity].
Defined.

Lemma serve_deterministic_witness :
  (result (serve (@part_000.ServeHTTP noTables (handlerAt cell1 LevelInfo))
             (busyRequest "PUT" "/log/warn") (busyWorld cell1 LevelDebug)) =
   result (serve (@part_000.ServeHTTP noTables (handlerAt cell1 LevelInfo))
             (request "PUT" "/log/warn") (cellWorld cell1 LevelDebug)) /\
   heap (world (serve (@part_000.ServeHTTP noTables (handlerAt cell1 LevelInfo))
                  (busyRequest "PUT" "/log/warn") (busyWorld cell1 LevelDebug))) !! cell1 =
   heap (world (serve (@part_000.ServeHTTP noTables (handlerAt cell1 LevelInfo))
                  (request "PUT" "/log/warn") (cellWorld cell1 LevelDebug))) !! cell1) /\
  (result (serve (@log_go.ServeHTTP noTables (handlerAt cell1 LevelInfo))
             (busyRequest "PUT" "/log/warn") (busyWorld cell1 LevelDebug)) =
   result (serve (@log_go.ServeHTTP noTables (handlerAt cell1 LevelInfo))
             (request "PUT" "/log/warn") (cellWorld cell1 LevelDebug)) /\
   heap (world (serve (@log_go.ServeHTTP noTables (handlerAt cell1 LevelInfo))
                  (busyRequest "PUT" "/log/warn") (busyWorld cell1 LevelDebug))) !! cell1 =
   heap (world (serve (@log_go.ServeHTTP noTables (handlerAt cell1 LevelInfo))
                  (request "PUT" "/log/warn") (cellWorld cell1 LevelDebug))) !! cell1) /\
  (serve (@part_000.ServeHTTP noTables (handlerAt cell1 LevelInfo))
     (busyRequest "PATCH" "/log") (busyWorld cell1 LevelDebug)
   = Returns (StatusMethodNotAllowed, EmptyString) (busyWorld cell1 LevelDebug) /\
   serve (@log_go.ServeHTTP noTables (handlerAt cell1 LevelInfo))
     (busyRequest "PATCH" "/log") (busyWorld cell1 LevelDebug)
   = Returns (StatusMethodNotAllowed, EmptyString) (busyWorld cell1 LevelDebug)).
Proof.
  assert (defaultReadable (busyWorld cell1 LevelDebug)) as Hbusy
    by (exists LevelWarn; reflexivity).
  assert (defaultReadable (cellWorld cell1 LevelDebug)) as Hcell
    by (exists LevelInfo; reflexivity).
  destruct (@serve_deterministic noTables (handlerAt cell1 LevelInfo)
              (busyRequest "PUT" "/log/warn") (request "PUT" "/log/warn")
              (busyWorld cell1 LevelDebug) (cellWorld cell1 LevelDebug)
              eq_refl eq_refl eq_refl Hbusy Hcell) as (Hcat & Hplain & _).
  destruct (@serve_deterministic noTables (handlerAt cell1 LevelInfo)
              (busyRequest "PATCH" "/log") (request "PATCH" "/log")
              (busyWorld cell1 LevelDebug) (cellWorld cell1 LevelDebug)
              eq_refl eq_refl eq_refl Hbusy Hcell) as (_ & _ & Hother).
  split; [exact Hcat|]. split; [exact Hplain|].
  apply Hother. repeat split; discriminate.
Defined.

(** the scenarios of the control endpoint, on a handler made by [Create] at
    level info: GET; PUT error, GET; PUT bogus; DELETE, GET; PATCH; PUT on a
    path that ends in a slash; and, in the [log.go] revision, an offset *)
Example scenarios :
  let run (serveHTTP : logHandler -> ResponseWriter -> Request -> M ResponseWriter)
          (rs : list Request) :=
    result (('(_, h) ← Create (optionsAt LevelInfo) true [];
             serveAll (serveHTTP h) rs) startWorld) in
  let unknown (x rest : string) :=
    "unknown log level " +:+ String quoteChar (x +:+ String quoteChar rest) in
  run (@part_000.ServeHTTP noTables)
    [request "GET" "/log"; request "PUT" "/log/error"; request "GET" "/log";
     request "PUT" "/log/bogus"; request "GET" "/log";
     request "DELETE" "/log"; request "GET" "/log";
     request "PATCH" "/log"; request "PUT" "/log/"; request "POST" "/log/Warn"]
  = Some [(200, "INFO"); (202, EmptyString); (200, "ERROR");
          (400, unknown "bogus" ", specify one of DEBUG, INFO, WARN, ERROR");
          (200, "ERROR");
          (202, EmptyString); (200, "INFO");
          (405, EmptyString);
          (400, unknown EmptyString ", specify one of DEBUG, INFO, WARN, ERROR");
          (202, EmptyString)] /\
  run (@log_go.ServeHTTP noTables)
    [request "PUT" "/log/error"; request "GET" "/log";
     request "PUT" "/log/bogus"; request "PUT" "/log/";
     request "PUT" "/log/ERROR+10"; request "GET" "/log";
     request "DELETE" "/log"; request "GET" "/log"]
  = Some [(202, EmptyString); (200, "ERROR");
          (400, unknown "bogus" EmptyString); (400, unknown EmptyString EmptyString);
          (202, EmptyString); (200, "ERROR+10");
          (202, EmptyString); (200, "INFO")].
Proof. by vm_compute. Qed.

(* ===================================================================== *)
(** ** The logger factory                                                  *)
(* ===================================================================== *)

Lemma fresh_cell_unused (w : World) : heap w !! fresh (dom (heap w)) = None.
Proof.
  apply not_elem_of_dom, is_fresh.
Qed.

Lemma Create_returns (opts : HandlerOptions) (jsonOutput : bool)
    (attrs : list Attr) (w : World) (L : Level) :
  levelOf (Level_ opts) w = Some L ->
  Create opts jsonOutput attrs w =
    Returns (loggerOn (fresh (dom (heap w))) opts jsonOutput attrs,
             {| init := L; current := fresh (dom (heap w)) |})
      (setCell (fresh (dom (heap w))) L w).
Proof.
  intros HL. pose proof (fresh_cell_unused w) as Hp.
  set (p := fresh (dom (heap w))) in *.
  assert (setCell p L w =
          {| heap := <[p := L]> (<[p := 0]> (heap w));
             defaultLogger := defaultLogger w; stderr := stderr w |}) as ->.
  { unfold setCell. by rewrite insert_insert_eq. }
  unfold Create, loggerOn. unfold_M. unfold newLevelVar. fold p.
  destruct (Level_ opts) as [[l|q]|]; simpl in HL; [| |done].
  - inversion HL; subst. simpl. unfold LevelVar_Set. simpl.
    rewrite lookup_insert_eq. by destruct jsonOutput.
  - assert (q <> p) as Hq by congruence.
    simpl. unfold LevelVar_Level, LevelVar_Set. simpl.
    rewrite lookup_insert_ne, HL by done. simpl.
    rewrite lookup_insert_eq. simpl.
    rewrite !lookup_insert_ne, HL by done. by destruct jsonOutput.
Qed.

Lemma Create_outcome (opts : HandlerOptions) (jsonOutput : bool)
    (attrs : list Attr) (w : World) :
  (exists L, Create opts jsonOutput attrs w =
     Returns (loggerOn (fresh (dom (heap w))) opts jsonOutput attrs,
              {| init := L; current := fresh (dom (heap w)) |})
       (setCell (fresh (dom (heap w))) L w)) \/
  Create opts jsonOutput attrs w =
    Panics {| heap := <[fresh (dom (heap w)) := 0]> (heap w);
              defaultLogger := defaultLogger w; stderr := stderr w |}.
Proof.
  destruct (levelOf (Level_ opts) w) as [L|] eqn:HL.
  { left. exists L. by apply Create_returns. }
  pose proof (fresh_cell_unused w) as Hp.
  set (p := fresh (dom (heap w))) in *.
  unfold Create, loggerOn. unfold_M. unfold newLevelVar. fold p.
  destruct (Level_ opts) as [[l|q]|]; simpl in HL; [done| |by right].
  simpl. unfold LevelVar_Level, LevelVar_Set. simpl.
  destruct (decide (q = p)) as [->|Hq].
  - left. exists 0. rewrite !lookup_insert_eq. simpl.
    rewrite !lookup_insert_eq. simpl. rewrite !lookup_insert_eq.
    unfold setCell. rewrite insert_insert_eq.
    by destruct jsonOutput.
  - right. rewrite lookup_insert_ne by done. rewrite HL. done.
Qed.

Lemma onlyAllocates_fresh (w : World) (l : Level) :
  onlyAllocates w {| heap := <[fresh (dom (heap w)) := l]> (heap w);
                     defaultLogger := defaultLogger w; stderr := stderr w |}.
Proof.
  split; [done|]. split; [done|]. intros q [c Hq]. simpl.
  apply lookup_insert_ne. intros <-. by rewrite fresh_cell_unused in Hq.
Qed.

(** C8. [Create] ends by returning or by panicking (on a nil [Level]), and
    either way the world it leaves differs from the one it was called in by
    new cells only: the default logger is the same, no record was written,
    the cells that existed hold what they held.  [SetDefaults] is [Create]
    followed by [slog.SetDefault] on the logger [Create] returned, and
    returns the handler [Create] returned. *)
Theorem Create_only_allocates (opts : HandlerOptions) (jsonOutput : bool)
    (attrs : list Attr) (w : World) :
  onlyAllocates w (world (Create opts jsonOutput attrs w)) /\
  (forall status w', Create opts jsonOutput attrs w <> Exits status w') /\
  SetDefaults opts jsonOutput attrs w =
    match Create opts jsonOutput attrs w with
    | Returns (logger, handler) w' =>
        Returns handler {| heap := heap w';
                           defaultLogger := logger;
                           stderr := stderr w' |}
    | Exits status w' => Exits status w'
    | Panics w' => Panics w'
    end /\
  SetDefaults opts jsonOutput attrs =
    ('(logger, handler) ← Create opts jsonOutput attrs;
     SetDefault logger;; mret handler).
Proof.
  split; [|split; [|split]].
  - destruct (Create_outcome opts jsonOutput attrs w) as [[L ->] | ->]; simpl;
      apply onlyAllocates_fresh.
  - intros status w'.
    by destruct (Create_outcome opts jsonOutput attrs w) as [[L ->] | ->].
  - unfold SetDefaults. unfold_M.
    by destruct (Create opts jsonOutput attrs w) as [[logger handler] w'| |].
  - reflexivity.
Qed.

Lemma Create_only_allocates_witness :
  onlyAllocates (busyWorld cell1 LevelWarn)
    (world (Create (optionsAt LevelError) true [] (busyWorld cell1 LevelWarn))) /\
  onlyAllocates (busyWorld cell1 LevelWarn)
    (world (Create {| AddSource := false; Level_ := None; ReplaceAttr := None |}
              true [] (busyWorld cell1 LevelWarn))) /\
  result (SetDefaults (optionsAt LevelError) true [] (busyWorld cell1 LevelWarn)) =
    Some {| init := LevelError; current := 3%positive |}.
Proof.
  split; [|split].
  - apply (Create_only_allocates (optionsAt LevelError) true []
             (busyWorld cell1 LevelWarn)).
  - apply (Create_only_allocates
             {| AddSource := false; Level_ := None; ReplaceAttr := None |} true []
             (busyWorld cell1 LevelWarn)).
  - destruct (Create_only_allocates (optionsAt LevelError) true []
                (busyWorld cell1 LevelWarn)) as (_ & _ & -> & _).
    reflexivity.
Defined.

(** C10. After [Create] with an initial level [L] the new cell holds [L],
    [L] is the reset target of the handler, and the logger reads its
    threshold from that cell; a GET is answered 200 with the name of [L],
    and a DELETE is answered 202 and leaves the cells as they are.  The same
    holds after [SetDefaults], whose logger is then the default one. *)
Theorem Create_initial_level `{UnicodeTables} (opts : HandlerOptions)
    (jsonOutput : bool) (attrs : list Attr) (w : World) (L : Level)
    (g d : Request) :
  levelOf (Level_ opts) w = Some L ->
  Method g = MethodGet -> Method d = MethodDelete ->
  defaultReadable w ->
  (exists logger h w',
      Create opts jsonOutput attrs w = Returns (logger, h) w' /\
      heap w' !! current h = Some L /\ init h = L /\
      threshold (handler logger) w' = Some L /\
      serve (part_000.ServeHTTP h) g w' = Returns (StatusOK, Level_String L) w' /\
      serve (log_go.ServeHTTP h) g w' = Returns (StatusOK, Level_String L) w' /\
      (exists w'', serve (part_000.ServeHTTP h) d w' = Returns (StatusAccepted, EmptyString) w'' /\
                   heap w'' = heap w') /\
      (exists w'', serve (log_go.ServeHTTP h) d w' = Returns (StatusAccepted, EmptyString) w'' /\
                   heap w'' = heap w')) /\
  (exists h w',
      SetDefaults opts jsonOutput attrs w = Returns h w' /\
      heap w' !! current h = Some L /\ init h = L /\
      threshold (handler (defaultLogger w')) w' = Some L /\
      serve (part_000.ServeHTTP h) g w' = Returns (StatusOK, Level_String L) w' /\
      serve (log_go.ServeHTTP h) g w' = Returns (StatusOK, Level_String L) w' /\
      (exists w'', serve (part_000.ServeHTTP h) d w' = Returns (StatusAccepted, EmptyString) w'' /\
                   heap w'' = heap w') /\
      (exists w'', serve (log_go.ServeHTTP h) d w' = Returns (StatusAccepted, EmptyString) w'' /\
                   heap w'' = heap w')).
Proof.
  intros HL Hg Hd Hw.
  pose proof (Create_returns opts jsonOutput attrs w L HL) as HC.
  set (p := fresh (dom (heap w))) in *.
  set (h := {| init := L; current := p |}) in *.
  assert (forall logger : Logger,
             heap {| heap := <[p := L]> (heap w); defaultLogger := logger;
                     stderr := stderr w |} !! current h = Some L) as Hcell
    by (intros; simpl; apply lookup_insert_eq).
  assert (threshold (handler (loggerOn p opts jsonOutput attrs)) (setCell p L w) = Some L)
    as Hthr.
  { unfold threshold, loggerOn. destruct jsonOutput; simpl; apply lookup_insert_eq. }
  assert (forall parse complaint (w1 : World),
            heap w1 !! p = Some L -> defaultReadable w1 ->
            exists w'', serve (ServeHTTP_with parse complaint h) d w1
                        = Returns (StatusAccepted, EmptyString) w'' /\
                        heap w'' = heap w1) as Hdel.
  { intros parse complaint w1 Hc1 Hw1. eexists. split.
    - by eapply serve_DELETE.
    - rewrite heap_logged. simpl. by apply insert_id. }
  split.
  - exists (loggerOn p opts jsonOutput attrs), h, (setCell p L w).
    assert (defaultReadable (setCell p L w)) as Hw'.
    { destruct Hw as [t Ht]. unfold defaultReadable, threshold in *. simpl.
      destruct (Level_ (options (handler (defaultLogger w)))) as [[c|q]|]; eauto.
      destruct (decide (p = q)) as [->|Hne].
      - rewrite lookup_insert_eq. eauto.
      - rewrite lookup_insert_ne by done. eauto. }
    repeat split; try done.
    + apply Hcell.
    + rewrite serve_part_000. apply serve_GET; [done|apply Hcell].
    + rewrite serve_log_go. apply serve_GET; [done|apply Hcell].
    + rewrite serve_part_000. apply Hdel; [apply Hcell|done].
    + rewrite serve_log_go. apply Hdel; [apply Hcell|done].
  - set (w' := {| heap := <[p := L]> (heap w);
                  defaultLogger := loggerOn p opts jsonOutput attrs;
                  stderr := stderr w |}).
    assert (threshold (handler (defaultLogger w')) w' = Some L) as Hthr' by apply Hthr.
    assert (defaultReadable w') as Hw' by (by exists L).
    exists h, w'. split.
    { unfold SetDefaults. unfold_M. by rewrite HC. }
    repeat split; try done.
    + apply Hcell.
    + rewrite serve_part_000. apply serve_GET; [done|apply Hcell].
    + rewrite serve_log_go. apply serve_GET; [done|apply Hcell].
    + rewrite serve_part_000. apply Hdel; [apply Hcell|done].
    + rewrite serve_log_go. apply Hdel; [apply Hcell|done].
Qed.

(** Scenario A: made at level info, the handler answers GET with "INFO" *)
Lemma Create_initial_level_witness :
  (exists logger h w',
      Create (optionsAt LevelInfo) true [] startWorld = Returns (logger, h) w' /\
      heap w' !! current h = Some LevelInfo /\ init h = LevelInfo /\
      threshold (handler logger) w' = Some LevelInfo /\
      serve (@part_000.ServeHTTP noTables h) (request "GET" "/log") w'
        = Returns (StatusOK, "INFO") w' /\
      serve (@log_go.ServeHTTP noTables h) (request "GET" "/log") w'
        = Returns (StatusOK, "INFO") w' /\
      (exists w'', serve (@part_000.ServeHTTP noTables h) (request "DELETE" "/log") w'
                   = Returns (StatusAccepted, EmptyString) w'' /\ heap w'' = heap w') /\
      (exists w'', serve (@log_go.ServeHTTP noTables h) (request "DELETE" "/log") w'
                   = Returns (StatusAccepted, EmptyString) w'' /\ heap w'' = heap w')) /\
  (exists h w',
      SetDefaults (optionsAt LevelInfo) true [] startWorld = Returns h w' /\
      heap w' !! current h = Some LevelInfo /\ init h = LevelInfo /\
      threshold (handler (defaultLogger w')) w' = Some LevelInfo /\
      serve (@part_000.ServeHTTP noTables h) (request "GET" "/log") w'
        = Returns (StatusOK, "INFO") w' /\
      serve (@log_go.ServeHTTP noTables h) (request "GET" "/log") w'
        = Returns (StatusOK, "INFO") w' /\
      (exists w'', serve (@part_000.ServeHTTP noTables h) (request "DELETE" "/log") w'
                   = Returns (StatusAccepted, EmptyString) w'' /\ heap w'' = heap w') /\
      (exists w'', serve (@log_go.ServeHTTP noTables h) (request "DELETE" "/log") w'
                   = Returns (StatusAccepted, EmptyString) w'' /\ heap w'' = heap w')).
Proof.
  apply (@Create_initial_level noTables (optionsAt LevelInfo) true [] startWorld
           LevelInfo (request "GET" "/log") (request "DELETE" "/log")).
  - reflexivity.
  - reflexivity.
  - reflexivity.
  - exists LevelInfo. reflexivity.
Defined.

(* ===================================================================== *)
(** ** Fatal                                                               *)
(* ===================================================================== *)

Lemma Fatal_outcome (log : Logger) (message : string) (args : list Attr)
    (w : World) (t : Level) :
  threshold (handler log) w = Some t ->
  Fatal log message args w =
    Exits 1 (if t <=? LevelError + 4
             then written (handler log) (fatalRecord message args) w
             else w).
Proof.
  intros Ht. unfold Fatal. unfold_M.
  rewrite Logger_Log_ok by eauto. unfold logged. rewrite Ht.
  replace (wrap64 (LevelError + 4)) with (LevelError + 4) by reflexivity.
  reflexivity.
Qed.

(** C9, as the code has it. [Fatal] logs at ERROR+4, which is above every
    level of the catalogue.  The record is written when the threshold of the
    logger is at most ERROR+4, so at every threshold of the catalogue, and
    is dropped at a higher threshold.  Then the process exits with status 1:
    [Fatal] does not return. *)
Theorem Fatal_logs_then_exits (log : Logger) (message : string)
    (args : list Attr) (w : World) (t : Level) :
  threshold (handler log) w = Some t ->
  (forall L, In L levels -> L < LevelError + 4) /\
  Fatal log message args w =
    Exits 1 (if t <=? LevelError + 4
             then written (handler log) (fatalRecord message args) w
             else w) /\
  (t <= LevelError + 4 -> FatalEmits log message args w) /\
  (In t levels -> FatalEmits log message args w) /\
  (forall a w', Fatal log message args w <> Returns a w').
Proof.
  intros Ht. pose proof (Fatal_outcome log message args w t Ht) as HF.
  assert (forall L, In L levels -> L < LevelError + 4) as Hlevels.
  { intros L HL. destruct (levels_cases L HL) as [-> | [-> | [-> | ->]]]; done. }
  assert (t <= LevelError + 4 -> FatalEmits log message args w) as Hemit.
  { intros Hle. eexists. split; [exact HF|].
    replace (t <=? LevelError + 4) with true by (symmetry; by apply Z.leb_le).
    done. }
  repeat split; try done.
  - intros Hin. apply Hemit. specialize (Hlevels t Hin). lia.
  - intros a w'. by rewrite HF.
Qed.

Lemma Fatal_logs_then_exits_witness :
  Fatal (loggerOnCell cell1) "no configuration" [] (cellWorld cell1 LevelWarn) =
    Exits 1 (written (handler (loggerOnCell cell1))
               (fatalRecord "no configuration" []) (cellWorld cell1 LevelWarn)) /\
  FatalEmits (loggerOnCell cell1) "no configuration" [] (cellWorld cell1 LevelWarn) /\
  Fatal (loggerOnCell cell1) "no configuration" [] (cellWorld cell1 (LevelError + 5)) =
    Exits 1 (cellWorld cell1 (LevelError + 5)).
Proof.
  destruct (Fatal_logs_then_exits (loggerOnCell cell1) "no configuration" []
              (cellWorld cell1 LevelWarn) LevelWarn eq_refl)
    as (_ & Hout & _ & Hemit & _).
  destruct (Fatal_logs_then_exits (loggerOnCell cell1) "no configuration" []
              (cellWorld cell1 (LevelError + 5)) (LevelError + 5) eq_refl)
    as (_ & Hdrop & _).
  split; [exact Hout|]. split; [|exact Hdrop].
  apply Hemit. simpl. tauto.
Defined.

(** C9, as it is stated, fails: at a threshold above ERROR+4 [Fatal] exits
    with status 1 and writes no record.  Such a threshold is reached from a
    logger made at level info by a PUT of "ERROR+10" to the handler of
    [log.go], which raises the threshold to 18. *)
Lemma Fatal_emits_counterexample :
  ~ FatalEmits (loggerOnCell cell1) "no configuration" []
      (cellWorld cell1 (LevelError + 10)) /\
  exists logger h w1 w2,
    Create (optionsAt LevelInfo) false [] startWorld = Returns (logger, h) w1 /\
    serve (@log_go.ServeHTTP noTables h) (request "PUT" "/log/ERROR+10") w1
      = Returns (StatusAccepted, EmptyString) w2 /\
    threshold (handler logger) w2 = Some 18 /\
    Fatal logger "no configuration" [] w2 = Exits 1 w2 /\
    ~ FatalEmits logger "no configuration" [] w2.
Proof.
  assert (forall (log : Logger) (w : World),
             Fatal log "no configuration" [] w = Exits 1 w ->
             ~ FatalEmits log "no configuration" [] w) as Hsilent.
  { intros log w Hexit (w' & Hf & Hs). rewrite Hexit in Hf. injection Hf as <-.
    apply (f_equal length) in Hs. rewrite length_app in Hs. simpl in Hs. lia. }
  split.
  - apply Hsilent. by vm_compute.
  - eexists _, _, _, _.
    split; [by vm_compute|]. split; [by vm_compute|]. split; [by vm_compute|].
    split; [by vm_compute|].
    apply Hsilent. by vm_compute.
Qed.

(* ===================================================================== *)
(** ** More on the registry and on the two parsers                         *)
(* ===================================================================== *)

Lemma code_inj (a b : ascii) : code a = code b -> a = b.
Proof.
  intros Hab. rewrite <- (chr_code a), <- (chr_code b). by rewrite Hab.
Qed.

Lemma eqb_code (a b : ascii) : Ascii.eqb a b = (code a =? code b).
Proof.
  destruct (Ascii.eqb_spec a b) as [->|Hne].
  - symmetry. apply Z.eqb_refl.
  - symmetry. apply Z.eqb_neq. intros Hc. by apply Hne, code_inj.
Qed.

Lemma code_upperByte (c : ascii) :
  code (upperByte c) = if (97 <=? code c) && (code c <=? 122) then code c - 32 else code c.
Proof.
  unfold upperByte. destruct ((97 <=? code c) && (code c <=? 122)) eqn:E; [|done].
  apply code_chr. lia.
Qed.

Lemma upperByte_lowerByte (c : ascii) : upperByte (lowerByte c) = upperByte c.
Proof.
  apply code_inj. rewrite !code_upperByte, code_lowerByte.
  destruct ((65 <=? code c) && (code c <=? 90)) eqn:E1;
    destruct ((97 <=? code c) && (code c <=? 122)) eqn:E2;
    repeat match goal with
           | |- context [if ?b then _ else _] => destruct b eqn:?
           end; lia.
Qed.

Lemma mapBytes_upper_lower (s : string) :
  mapBytes upperByte (mapBytes lowerByte s) = mapBytes upperByte s.
Proof.
  induction s as [|c s IH]; simpl; [done|].
  by rewrite upperByte_lowerByte, IH.
Qed.

Lemma lowerByte_sign (c : ascii) :
  Ascii.eqb (lowerByte c) "+" || Ascii.eqb (lowerByte c) "-"
  = Ascii.eqb c "+" || Ascii.eqb c "-".
Proof.
  rewrite !eqb_code, code_lowerByte.
  change (code "+") with 43. change (code "-") with 45.
  destruct ((65 <=? code c) && (code c <=? 90)) eqn:E; [|done].
  apply andb_prop in E as [E1 E2].
  repeat match goal with
         | |- context [?a =? ?b] => destruct (Z.eqb_spec a b)
         end; try done; lia.
Qed.

Lemma IndexAny_lower (s : string) :
  IndexAny_plus_minus (mapBytes lowerByte s) = IndexAny_plus_minus s.
Proof.
  induction s as [|c s IH]; simpl; [done|].
  by rewrite lowerByte_sign, IH.
Qed.

Section Parsers.
Context `{UnicodeTables}.

(** X1. What [ParseLevel] finds is a level of the catalogue, and the string
    it was found for is the name of that level up to case. *)
Theorem ParseLevel_sound (s : string) (L : Level) :
  ParseLevel s = (L, true) ->
  In L levels /\ ToLower s = ToLower (Level_String L) /\
  ParseLevel (Level_String L) = (L, true).
Proof.
  rewrite ParseLevel_cases.
  repeat case_decide; intros [= <-]; (split; [simpl; tauto|]); split;
    solve [by vm_compute | done].
Qed.

Lemma UnmarshalText_of_lower (s lower : string) (anchor : Level) :
  isASCII s = true -> ToLower s = lower ->
  IndexAny_plus_minus lower = None ->
  (let upper := mapBytes upperByte lower in
   (if String.eqb upper "DEBUG" then Some (wrap64 (LevelDebug + 0))
    else if String.eqb upper "INFO" then Some (wrap64 (LevelInfo + 0))
    else if String.eqb upper "WARN" then Some (wrap64 (LevelWarn + 0))
    else if String.eqb upper "ERROR" then Some (wrap64 (LevelError + 0))
    else None) = Some anchor) ->
  Level_UnmarshalText s = Some anchor.
Proof.
  intros Hs Hlow Hidx Hup. unfold ToLower in Hlow. rewrite Hs in Hlow. subst lower.
  rewrite IndexAny_lower in Hidx. rewrite mapBytes_upper_lower in Hup.
  unfold Level_UnmarshalText, ToUpper. by rewrite Hidx, Hs.
Qed.

(** X2. On a string of ASCII bytes, what [ParseLevel] finds,
    [Level.UnmarshalText] parses to the same level: the parser of [log.go]
    accepts what the catalogue accepts. *)
Theorem ParseLevel_then_UnmarshalText (s : string) (L : Level) :
  isASCII s = true -> ParseLevel s = (L, true) ->
  Level_UnmarshalText s = Some L.
Proof.
  intros Hs. rewrite ParseLevel_cases.
  repeat case_decide; intros [= <-];
    eapply UnmarshalText_of_lower; eauto; reflexivity.
Qed.

End Parsers.

Lemma ParseLevel_sound_witness :
  In LevelWarn levels /\
  @ToLower noTables "Warn" = @ToLower noTables (Level_String LevelWarn) /\
  @ParseLevel noTables (Level_String LevelWarn) = (LevelWarn, true).
Proof.
  apply (@ParseLevel_sound noTables "Warn" LevelWarn). reflexivity.
Defined.

Lemma ParseLevel_then_UnmarshalText_witness :
  @Level_UnmarshalText noTables "eRRor" = Some LevelError.
Proof.
  apply (@ParseLevel_then_UnmarshalText noTables "eRRor" LevelError); reflexivity.
Defined.

(* ===================================================================== *)
(** ** Names of levels with an offset                                      *)
(* ===================================================================== *)

Lemma app_cons (x : ascii) (a b : string) : String x a +:+ b = String x (a +:+ b).
Proof. reflexivity. Qed.

Lemma app_assoc_string (a b c : string) : (a +:+ b) +:+ c = a +:+ (b +:+ c).
Proof.
  induction a as [|x a IH]; [done|]. rewrite !app_cons. f_equal. exact IH.
Qed.

Lemma app_empty_r (a : string) : a +:+ EmptyString = a.
Proof.
  induction a as [|x a IH]; [done|]. rewrite app_cons. f_equal. exact IH.
Qed.

Lemma digitsValue_app (a : Z) (s t : string) :
  digitsValue a (s +:+ t) = digitsValue (digitsValue a s) t.
Proof.
  revert a. induction s as [|c s IH]; intros a; simpl; [done|]. apply IH.
Qed.

Lemma allDigits_app (s t : string) :
  allDigits (s +:+ t) = allDigits s && allDigits t.
Proof.
  induction s as [|c s IH]; simpl; [done|]. by rewrite IH, andb_assoc.
Qed.

Lemma digitChar_digit (d : Z) :
  0 <= d < 10 -> isDigit (digitChar d) = true /\ code (digitChar d) - 48 = d.
Proof.
  intros Hd. unfold isDigit, digitChar. rewrite code_chr by lia. lia.
Qed.

Lemma decimalDigits_spec (fuel : nat) (n : Z) (acc : string) :
  0 <= n < 2 ^ Z.of_nat (S fuel) ->
  exists ds, decimalDigits (S fuel) n acc = ds +:+ acc /\ ds <> EmptyString /\
             allDigits ds = true /\ digitsValue 0 ds = n.
Proof.
  revert n acc. induction fuel as [|fuel IH]; intros n acc Hn.
  - assert (n / 10 = 0) as Hq by (apply Z.div_small; simpl in Hn; lia).
    exists (str1 (digitChar (n mod 10))). simpl. rewrite Hq. simpl.
    destruct (digitChar_digit (n mod 10)) as [Hd Hv]; [apply Z.mod_pos_bound; lia|].
    rewrite Hd, Hv. repeat split; try done.
    rewrite Z.mod_small; [lia|]. simpl in Hn. lia.
  - destruct (digitChar_digit (n mod 10)) as [Hd Hv]; [apply Z.mod_pos_bound; lia|].
    change (decimalDigits (S (S fuel)) n acc) with
      (let acc' := String (digitChar (n mod 10)) acc in
       if n / 10 =? 0 then acc' else decimalDigits (S fuel) (n / 10) acc').
    cbv zeta. destruct (Z.eqb_spec (n / 10) 0) as [Hq | Hq].
    + exists (str1 (digitChar (n mod 10))). simpl. rewrite Hd, Hv.
      repeat split; try done.
      pose proof (Z.div_mod n 10). lia.
    + destruct (IH (n / 10) (String (digitChar (n mod 10)) acc)) as (ds & Heq & Hne & Hall & Hval).
      { split; [apply Z.div_pos; lia|].
        apply Z.div_lt_upper_bound; [lia|].
        replace (Z.of_nat (S (S fuel))) with (Z.of_nat (S fuel) + 1) in Hn by lia.
        rewrite Z.pow_add_r in Hn by lia. lia. }
      exists (ds +:+ str1 (digitChar (n mod 10))).
      rewrite Heq, app_assoc_string. simpl.
      rewrite allDigits_app, digitsValue_app, Hall, Hval. simpl. rewrite Hd, Hv.
      repeat split; try done.
      * by destruct ds.
      * pose proof (Z.div_mod n 10). lia.
Qed.

Lemma FormatUint_spec (n : Z) :
  0 <= n ->
  FormatUint n <> EmptyString /\ allDigits (FormatUint n) = true /\
  digitsValue 0 (FormatUint n) = n.
Proof.
  intros Hn. unfold FormatUint.
  destruct (decimalDigits_spec (Z.to_nat (Z.log2 n)) n EmptyString)
    as (ds & Heq & Hne & Hall & Hval).
  { split; [done|]. rewrite Nat2Z.inj_succ, Z2Nat.id by apply Z.log2_nonneg.
    destruct (Z.eq_dec n 0) as [-> | Hnz]; [done|].
    apply Z.log2_spec. lia. }
  rewrite Heq, app_empty_r. done.
Qed.

(** [Atoi] reads back what [%+d] prints *)
Lemma Atoi_FormatSigned (v : Z) :
  minInt64 <= v <= maxInt64 -> Atoi (FormatSigned v) = Some v.
Proof.
  intros Hv. unfold FormatSigned, Atoi.
  destruct (Z.ltb_spec v 0) as [Hneg | Hpos].
  - destruct (FormatUint_spec (- v)) as (Hne & Hall & Hval); [lia|].
    change (Ascii.eqb "-" "+") with false. change (Ascii.eqb "-" "-") with true.
    cbv iota beta. destruct (FormatUint (- v)) as [|c ds] eqn:E; [done|].
    rewrite Hall, Hval.
    replace ((minInt64 <=? - - v) && (- - v <=? maxInt64)) with true by lia.
    f_equal. lia.
  - destruct (FormatUint_spec v) as (Hne & Hall & Hval); [lia|].
    change (Ascii.eqb "+" "+") with true.
    cbv iota beta. destruct (FormatUint v) as [|c ds] eqn:E; [done|].
    rewrite Hall, Hval.
    by replace ((minInt64 <=? v) && (v <=? maxInt64)) with true by lia.
Qed.

Lemma FormatSigned_shape (v : Z) :
  exists sign ds, FormatSigned v = String sign ds /\
                  (Ascii.eqb sign "+" || Ascii.eqb sign "-") = true.
Proof.
  unfold FormatSigned. destruct (v <? 0); eauto.
Qed.

Lemma substring_all (t : string) : substring 0 (String.length t) t = t.
Proof.
  induction t as [|c t IH]; simpl; [done|]. f_equal. exact IH.
Qed.

(** a name without a sign, then a signed offset: where [parse] cuts *)
Lemma cut_at_sign (base t : string) (sign : ascii) (ds : string) :
  IndexAny_plus_minus base = None -> t = String sign ds ->
  (Ascii.eqb sign "+" || Ascii.eqb sign "-") = true ->
  exists i, IndexAny_plus_minus (base +:+ t) = Some i /\
            slice_to (base +:+ t) i = base /\ slice_from (base +:+ t) i = t.
Proof.
  intros Hbase -> Hsign. unfold slice_to, slice_from.
  induction base as [|c base IH].
  - exists 0%nat. change (EmptyString +:+ String sign ds) with (String sign ds).
    cbn [IndexAny_plus_minus]. rewrite Hsign.
    split; [done|]. split; [done|].
    rewrite Nat.sub_0_r. apply substring_all.
  - simpl in Hbase.
    destruct (Ascii.eqb c "+" || Ascii.eqb c "-") eqn:Hc; [done|].
    destruct (IndexAny_plus_minus base) as [j|] eqn:Hj; [done|].
    destruct (IH eq_refl) as (i & Hi & Hto & Hfrom).
    exists (S i). rewrite app_cons. cbn [IndexAny_plus_minus]. rewrite Hc, Hi.
    split; [done|]. split.
    + cbn [substring]. by rewrite Hto.
    + cbn [substring String.length Nat.sub]. exact Hfrom.
Qed.

Lemma wrap64_id (z : Z) : minInt64 <= z <= maxInt64 -> wrap64 z = z.
Proof.
  unfold wrap64, minInt64, maxInt64. intros Hz.
  rewrite Z.mod_small; lia.
Qed.

Lemma isASCII_app (s t : string) : isASCII (s +:+ t) = isASCII s && isASCII t.
Proof.
  induction s as [|c s IH]; simpl; [done|]. by rewrite IH, andb_assoc.
Qed.

Lemma allDigits_isASCII (s : string) : allDigits s = true -> isASCII s = true.
Proof.
  induction s as [|c s IH]; simpl; [done|].
  unfold isDigit. intros [Hc Hs]%andb_prop. rewrite (IH Hs).
  replace (code c <? 128) with true by lia. done.
Qed.

Lemma FormatSigned_isASCII (v : Z) : isASCII (FormatSigned v) = true.
Proof.
  unfold FormatSigned.
  destruct (Z.ltb_spec v 0); cbn [isASCII];
    (apply andb_true_intro; split; [done|]);
    apply allDigits_isASCII, FormatUint_spec; lia.
Qed.

Lemma Level_String_cases (l : Level) :
  minInt64 <= l <= maxInt64 ->
  exists base anchor,
    In (base, anchor) anchors /\
    minInt64 <= l - anchor <= maxInt64 /\
    Level_String l = if l - anchor =? 0 then base else base +:+ FormatSigned (l - anchor).
Proof.
  intros Hl. unfold Level_String, anchors.
  assert (forall base anchor,
             In (base, anchor) anchors ->
             minInt64 <= l - anchor <= maxInt64 ->
             exists base' anchor',
               In (base', anchor') anchors /\
               minInt64 <= l - anchor' <= maxInt64 /\
               (if wrap64 (l - anchor) =? 0 then base
                else base +:+ FormatSigned (wrap64 (l - anchor))) =
               (if l - anchor' =? 0 then base'
                else base' +:+ FormatSigned (l - anchor'))) as Hcase.
  { intros base anchor Hin Hoff. exists base, anchor.
    by rewrite wrap64_id. }
  unfold minInt64, maxInt64 in Hl.
  destruct (Z.ltb_spec l LevelInfo); [|destruct (Z.ltb_spec l LevelWarn);
    [|destruct (Z.ltb_spec l LevelError)]];
    apply Hcase;
    unfold anchors, minInt64, maxInt64, LevelDebug, LevelInfo, LevelWarn, LevelError in *;
    solve [simpl; tauto | lia].
Qed.

Lemma anchors_cases (base : string) (anchor : Level) :
  In (base, anchor) anchors ->
  (base = "DEBUG" /\ anchor = LevelDebug) \/ (base = "INFO" /\ anchor = LevelInfo) \/
  (base = "WARN" /\ anchor = LevelWarn) \/ (base = "ERROR" /\ anchor = LevelError).
Proof.
  simpl. intros [[= <- <-] | [[= <- <-] | [[= <- <-] | [[= <- <-] | []]]]]; tauto.
Qed.

Section OffsetNames.
Context `{UnicodeTables}.

(** [Level.UnmarshalText] reads back what [Level.String] prints *)
Lemma UnmarshalText_String (l : Level) :
  minInt64 <= l <= maxInt64 -> Level_UnmarshalText (Level_String l) = Some l.
Proof.
  intros Hl. destruct (Level_String_cases l Hl) as (base & anchor & Hin & Hoff & ->).
  destruct (Z.eqb_spec (l - anchor) 0) as [Hz | Hnz].
  - assert (l = anchor) as -> by lia.
    destruct (anchors_cases _ _ Hin) as [[-> ->] | [[-> ->] | [[-> ->] | [-> ->]]]];
      by vm_compute.
  - destruct (FormatSigned_shape (l - anchor)) as (sign & ds & Hshape & Hsign).
    assert (IndexAny_plus_minus base = None) as Hbase.
    { destruct (anchors_cases _ _ Hin) as [[-> ->] | [[-> ->] | [[-> ->] | [-> ->]]]];
        by vm_compute. }
    destruct (cut_at_sign base _ sign ds Hbase Hshape Hsign) as (i & Hi & Hto & Hfrom).
    unfold Level_UnmarshalText. rewrite Hi, Hfrom, Hto, Atoi_FormatSigned by done.
    destruct (anchors_cases _ _ Hin) as [[-> ->] | [[-> ->] | [[-> ->] | [-> ->]]]];
      cbn; f_equal; rewrite wrap64_id;
      unfold minInt64, maxInt64, LevelDebug, LevelInfo, LevelWarn, LevelError in *; lia.
Qed.

(** a name with an offset is no name of the catalogue *)
Lemma ParseLevel_String_offset (l : Level) :
  minInt64 <= l <= maxInt64 -> ~ In l levels ->
  ParseLevel (Level_String l) = (0, false).
Proof.
  intros Hl Hout. destruct (Level_String_cases l Hl) as (base & anchor & Hin & Hoff & Heq).
  assert (In anchor levels /\ isASCII base = true) as [Hanchor Hbase].
  { destruct (anchors_cases _ _ Hin) as [[-> ->] | [[-> ->] | [[-> ->] | [-> ->]]]];
      (split; [simpl; tauto | reflexivity]). }
  destruct (Z.eqb_spec (l - anchor) 0) as [Hz | Hnz].
  { exfalso. apply Hout. by replace l with anchor by lia. }
  destruct (FormatSigned_shape (l - anchor)) as (sign & ds & Hshape & Hsign).
  assert (IndexAny_plus_minus (ToLower (Level_String l)) <> None) as Hidx.
  { unfold ToLower. rewrite Heq, isASCII_app, Hbase, FormatSigned_isASCII.
    cbn [andb]. rewrite IndexAny_lower, Hshape.
    clear -Hsign. induction base as [|c base IH].
    - change (EmptyString +:+ String sign ds) with (String sign ds).
      cbn [IndexAny_plus_minus]. by rewrite Hsign.
    - rewrite app_cons. cbn [IndexAny_plus_minus].
      destruct (Ascii.eqb c "+" || Ascii.eqb c "-"); [done|].
      by destruct (IndexAny_plus_minus (base +:+ String sign ds)). }
  rewrite ParseLevel_cases.
  repeat case_decide; try done;
    match goal with Hlow : ToLower _ = _ |- _ => rewrite Hlow in Hidx end;
    by exfalso.
Qed.

End OffsetNames.

(* ===================================================================== *)
(** ** The three revisions of the handler                                  *)
(* ===================================================================== *)

Lemma Logger_Log_cases (lg : Logger) (l : Level) (msg : string)
    (args : list Attr) (w : World) :
  Logger_Log lg l msg args w =
    match threshold (handler lg) w with
    | Some t =>
        Returns tt (if t <=? l
                    then written (handler lg) {| rlevel := l; rmsg := msg; rattrs := args |} w
                    else w)
    | None => Panics w
    end.
Proof.
  destruct (threshold (handler lg) w) as [t|] eqn:Ht.
  - rewrite Logger_Log_ok by eauto. unfold logged. by rewrite Ht.
  - unfold threshold in Ht. unfold Logger_Log, Enabled, slog.bind, slog.ret.
    destruct (Level_ (options (handler lg))) as [[c|p]|]; simpl in *; try done.
    unfold LevelVar_Level. by rewrite Ht.
Qed.

Lemma Logger_Log_logsOnly (msg : string) (args : list Attr) :
  logsOnly (fun w => Logger_Log (defaultLogger w) LevelInfo msg args w).
Proof.
  intros w. rewrite Logger_Log_cases.
  destruct (threshold (handler (defaultLogger w)) w) as [t|]; [|by left].
  right. destruct (t <=? LevelInfo); [right|by left].
  by eexists {| rlevel := LevelInfo; rmsg := msg; rattrs := args |}.
Qed.

Lemma logSetAttrs_logsOnly lvl : logsOnly (logSetAttrs lvl).
Proof. apply Logger_Log_logsOnly. Qed.

Lemma logResetAttrs_logsOnly h : logsOnly (logResetAttrs h).
Proof. apply Logger_Log_logsOnly. Qed.

Lemma logSetInfo_logsOnly lvl : logsOnly (logSetInfo lvl).
Proof. apply Logger_Log_logsOnly. Qed.

Lemma logResetInfo_logsOnly h : logsOnly (logResetInfo h).
Proof. apply Logger_Log_logsOnly. Qed.

Lemma Logger_Log_forgetAttrs (lg : Logger) (l : Level) (msg : string)
    (a1 a2 : list Attr) (w : World) :
  mapWorld forgetAttrs (Logger_Log lg l msg a1 w) =
  mapWorld forgetAttrs (Logger_Log lg l msg a2 w).
Proof.
  rewrite !Logger_Log_cases.
  destruct (threshold (handler lg) w) as [t|]; [|done].
  destruct (t <=? l); [|done].
  simpl. unfold forgetAttrs. simpl. by rewrite !map_app.
Qed.

Section Revisions.
Context `{UnicodeTables}.

Lemma ServeHTTP_with_logging parse complaint h w r :
  ServeHTTP_with parse complaint h w r =
  ServeHTTP_logging parse complaint logSetAttrs (logResetAttrs h) h w r.
Proof. reflexivity. Qed.

Lemma part_001_shape (h : logHandler) (w : ResponseWriter) (r : Request) :
  part_001.ServeHTTP h w r =
  ServeHTTP_logging parseCatalogue complaintCatalogue logSetInfo (logResetInfo h) h w r.
Proof.
  unfold part_001.ServeHTTP, ServeHTTP_logging, parseCatalogue, complaintCatalogue.
  destruct (String.eqb (Method r) MethodGet); [done|].
  destruct (String.eqb (Method r) MethodPut || String.eqb (Method r) MethodPost); [|done].
  destruct (length (Split (URL_Path r) "/") =? 0)%nat; [done|].
  destruct (Split (URL_Path r) "/" !! (length (Split (URL_Path r) "/") - 1)%nat)
    as [x|]; [|done].
  by destruct (ParseLevel x) as [lvl []].
Qed.

Lemma part_000_logging (h : logHandler) (r : Request) :
  serve (part_000.ServeHTTP h) r =
  serve (ServeHTTP_logging parseCatalogue complaintCatalogue
           logSetAttrs (logResetAttrs h) h) r.
Proof. by rewrite serve_part_000. Qed.

Lemma log_go_logging (h : logHandler) (r : Request) :
  serve (log_go.ServeHTTP h) r =
  serve (ServeHTTP_logging Level_UnmarshalText complaintPlain
           logSetAttrs (logResetAttrs h) h) r.
Proof. reflexivity. Qed.

Lemma part_001_logging (h : logHandler) (r : Request) :
  serve (part_001.ServeHTTP h) r =
  serve (ServeHTTP_logging parseCatalogue complaintCatalogue
           logSetInfo (logResetInfo h) h) r.
Proof. unfold serve. by rewrite part_001_shape. Qed.

Section Shape.
Variable parse : string -> option Level.
Variable complaint : string -> string.
Variable logSet : Level -> M unit.
Variable logReset : M unit.
Variable h : logHandler.

(** what a request is answered, by method *)
Lemma serve_logging_cases (r : Request) (w : World) :
  let o := serve (ServeHTTP_logging parse complaint logSet logReset h) r w in
  (Method r = MethodGet /\
   o = match heap w !! current h with
       | Some c => Returns (StatusOK, Level_String c) w
       | None => Panics w
       end) \/
  (setsLevel r /\
   exists x, lastSegment (URL_Path r) = Some x /\
     o = match parse x with
         | None => Returns (StatusBadRequest, complaint x) w
         | Some lvl => setThenLog h lvl (logSet lvl) w
         end) \/
  (Method r = MethodDelete /\ o = setThenLog h (init h) logReset w) \/
  (unknownMethod r /\ o = Returns (StatusMethodNotAllowed, EmptyString) w).
Proof.
  cbv zeta. unfold serve, ServeHTTP_logging, setThenLog.
  destruct (Method_cases r) as [Hm | [Hm | [Hm | Hm]]].
  - left. split; [done|]. rewrite Hm. method_tests. unfold_M.
    unfold LevelVar_Level. by destruct (heap w !! current h).
  - right; left. split; [done|].
    destruct (lastSegment_total (URL_Path r)) as [x Hx]. exists x. split; [done|].
    rewrite Split_last_index. unfold lastSegment in Hx. rewrite Hx.
    pose proof (Split_length (URL_Path r) "/") as Hlen.
    replace (length (Split (URL_Path r) "/") =? 0)%nat with false
      by (symmetry; apply Nat.eqb_neq; lia).
    destruct Hm as [-> | ->]; method_tests;
      (destruct (parse x) as [lvl|]; [|done]); unfold_M; unfold LevelVar_Set;
      destruct (heap w !! current h); try done;
      by destruct (logSet lvl _).
  - right; right; left. split; [done|]. rewrite Hm. method_tests. unfold_M.
    unfold LevelVar_Set. destruct (heap w !! current h); try done.
    by destruct (logReset _).
  - right; right; right. split; [done|].
    destruct Hm as (Hg & Hp & Ho & Hd).
    apply String.eqb_neq in Hg, Hp, Ho, Hd. by rewrite Hg, Hp, Ho, Hd.
Qed.

End Shape.
End Revisions.

Lemma touchesOnly_refl (h : logHandler) (w : World) : touchesOnly h w w.
Proof. repeat split; auto. Qed.

Lemma setThenLog_touchesOnly (h : logHandler) (lvl : Level) (m : M unit) (w : World) :
  logsOnly m ->
  touchesOnly h w (world (setThenLog h lvl m w)) /\
  (forall status w', setThenLog h lvl m w <> Exits status w') /\
  (heap w !! current h <> None ->
   heap (world (setThenLog h lvl m w)) !! current h = Some lvl).
Proof.
  intros Hm. unfold setThenLog.
  destruct (heap w !! current h) as [c|] eqn:Hc.
  2:{ split; [apply touchesOnly_refl|]. split; [done|]. done. }
  assert (touchesOnly h w (setCell (current h) lvl w)) as Hset.
  { split; [done|]. split; [|split; [|by left]]; simpl.
    - rewrite dom_insert_L. apply subseteq_union_1_L, singleton_subseteq_l.
      apply elem_of_dom. eauto.
    - intros q Hq. by rewrite lookup_insert_ne. }
  assert (heap (setCell (current h) lvl w) !! current h = Some lvl) as Hcell
    by (simpl; apply lookup_insert_eq).
  destruct (Hm (setCell (current h) lvl w)) as [-> | [-> | (rec & Hrec & ->)]];
    simpl; (split; [|split; [done|done]]); try done.
  destruct Hset as (Hd & Hdom & Hother & _).
  split; [done|]. split; [done|]. split; [done|].
  right. exists rec. split; [done|]. done.
Qed.

Section Revisions2.
Context `{UnicodeTables}.

Section Shape.
Variable parse : string -> option Level.
Variable complaint : string -> string.
Variable logSet : Level -> M unit.
Variable logReset : M unit.
Variable h : logHandler.
Hypothesis logSet_logsOnly : forall lvl, logsOnly (logSet lvl).
Hypothesis logReset_logsOnly : logsOnly logReset.

Lemma serve_logging_touchesOnly (r : Request) (w : World) :
  touchesOnly h w
    (world (serve (ServeHTTP_logging parse complaint logSet logReset h) r w)) /\
  (forall status w',
      serve (ServeHTTP_logging parse complaint logSet logReset h) r w <> Exits status w').
Proof.
  destruct (serve_logging_cases parse complaint logSet logReset h r w)
    as [[_ ->] | [[_ (x & _ & ->)] | [[_ ->] | [_ ->]]]].
  - destruct (heap w !! current h); (split; [apply touchesOnly_refl|done]).
  - destruct (parse x) as [lvl|]; [|split; [apply touchesOnly_refl|done]].
    split; by apply setThenLog_touchesOnly.
  - split; by apply setThenLog_touchesOnly.
  - split; [apply touchesOnly_refl|done].
Qed.

Lemma serve_logging_answers (r : Request) (w w' : World) (resp : Response) :
  serve (ServeHTTP_logging parse complaint logSet logReset h) r w = Returns resp w' ->
  answers r w resp w'.
Proof.
  unfold answers.
  destruct (serve_logging_cases parse complaint logSet logReset h r w)
    as [[Hm ->] | [[Hm (x & _ & ->)] | [[Hm ->] | [Hm ->]]]].
  - destruct (heap w !! current h); [|done]. intros [= <- <-]. left. done.
  - destruct (parse x) as [lvl|].
    + unfold setThenLog. destruct (heap w !! current h); [|done].
      destruct (logSet lvl _); try done. intros [= <- <-]. right; left. tauto.
    + intros [= <- <-]. right; right; left. done.
  - unfold setThenLog. destruct (heap w !! current h); [|done].
    destruct (logReset _); try done. intros [= <- <-]. right; left. tauto.
  - intros [= <- <-]. right; right; right. done.
Qed.

End Shape.

Section Shape2.
Variable logSet : Level -> M unit.
Variable logReset : M unit.
Variable h : logHandler.

(** the path of a request counts by its last segment, and only when the
    request sets the level *)
Lemma serve_logging_segment parse complaint (r1 r2 : Request) (w : World) :
  Method r1 = Method r2 ->
  (setsLevel r1 -> lastSegment (URL_Path r1) = lastSegment (URL_Path r2)) ->
  serve (ServeHTTP_logging parse complaint logSet logReset h) r1 w =
  serve (ServeHTTP_logging parse complaint logSet logReset h) r2 w.
Proof.
  intros Hm Hseg. unfold serve, ServeHTTP_logging. rewrite <- Hm.
  destruct (String.eqb (Method r1) MethodGet); [done|].
  destruct (String.eqb (Method r1) MethodPut || String.eqb (Method r1) MethodPost)
    eqn:Hset; [|done].
  assert (setsLevel r1) as Hsets.
  { apply orb_prop in Hset as [Hp | Hp]; apply String.eqb_eq in Hp; [by left|by right]. }
  specialize (Hseg Hsets). unfold lastSegment in Hseg.
  rewrite !Split_last_index, Hseg.
  pose proof (Split_length (URL_Path r1) "/").
  pose proof (Split_length (URL_Path r2) "/").
  replace (length (Split (URL_Path r1) "/") =? 0)%nat with false
    by (symmetry; apply Nat.eqb_neq; lia).
  replace (length (Split (URL_Path r2) "/") =? 0)%nat with false
    by (symmetry; apply Nat.eqb_neq; lia).
  done.
Qed.

(** two parsers that agree on the last segment of a request answer alike *)
Lemma serve_logging_parsers parse1 parse2 complaint1 complaint2
    (r : Request) (w : World) :
  (forall x, setsLevel r -> lastSegment (URL_Path r) = Some x ->
             parse1 x = parse2 x /\ (parse1 x = None -> complaint1 x = complaint2 x)) ->
  serve (ServeHTTP_logging parse1 complaint1 logSet logReset h) r w =
  serve (ServeHTTP_logging parse2 complaint2 logSet logReset h) r w.
Proof.
  intros Hparse. unfold serve, ServeHTTP_logging.
  destruct (String.eqb (Method r) MethodGet); [done|].
  destruct (String.eqb (Method r) MethodPut || String.eqb (Method r) MethodPost)
    eqn:Hset; [|done].
  assert (setsLevel r) as Hsets.
  { apply orb_prop in Hset as [Hp | Hp]; apply String.eqb_eq in Hp; [by left|by right]. }
  destruct (length (Split (URL_Path r) "/") =? 0)%nat; [done|].
  rewrite Split_last_index.
  destruct (last (Split (URL_Path r) "/")) as [x|] eqn:Hx; [|done].
  destruct (Hparse x Hsets Hx) as [Heq Hc]. rewrite <- Heq.
  destruct (parse1 x); [done|]. by rewrite Hc.
Qed.

End Shape2.

(** the revisions that log differently do the same but for the records *)
Lemma serve_logging_forget parse complaint logSet1 logSet2 logReset1 logReset2
    (h : logHandler) (r : Request) (w : World) :
  (forall lvl w, mapWorld forgetAttrs (logSet1 lvl w) = mapWorld forgetAttrs (logSet2 lvl w)) ->
  (forall w, mapWorld forgetAttrs (logReset1 w) = mapWorld forgetAttrs (logReset2 w)) ->
  mapWorld forgetAttrs (serve (ServeHTTP_logging parse complaint logSet1 logReset1 h) r w) =
  mapWorld forgetAttrs (serve (ServeHTTP_logging parse complaint logSet2 logReset2 h) r w).
Proof.
  intros Hset Hreset.
  destruct (serve_logging_cases parse complaint logSet1 logReset1 h r w)
    as [[Hm ->] | [[Hm (x & Hx & ->)] | [[Hm ->] | [Hm ->]]]];
  destruct (serve_logging_cases parse complaint logSet2 logReset2 h r w)
    as [[Hm' ->] | [[Hm' (x' & Hx' & ->)] | [[Hm' ->] | [Hm' ->]]]];
  try done;
  try (exfalso;
       unfold setsLevel, unknownMethod, MethodGet, MethodPut, MethodPost, MethodDelete in *;
       repeat match goal with
              | Hc : _ /\ _ |- _ => destruct Hc
              | Hc : _ \/ _ |- _ => destruct Hc
              end; congruence).
  - rewrite Hx in Hx'. injection Hx' as <-.
    destruct (parse x) as [lvl|]; [|done]. unfold setThenLog.
    destruct (heap w !! current h); [|done].
    specialize (Hset lvl (setCell (current h) lvl w)).
    destruct (logSet1 lvl _), (logSet2 lvl _); simpl in *; congruence.
  - unfold setThenLog. destruct (heap w !! current h); [|done].
    specialize (Hreset (setCell (current h) (init h) w)).
    destruct (logReset1 _), (logReset2 _); simpl in *; congruence.
Qed.

End Revisions2.

Lemma world_bind {A B} (m : M A) (k : A -> M B) (w : World) :
  world (slog.bind m k w) =
    match m w with
    | Returns a w' => world (k a w')
    | Exits _ w' | Panics w' => w'
    end.
Proof.
  unfold slog.bind. by destruct (m w).
Qed.

Lemma serveAll_ext handler1 handler2 (rs : list Request) :
  (forall r, serve handler1 r = serve handler2 r) ->
  serveAll handler1 rs = serveAll handler2 rs.
Proof.
  intros Hext. induction rs as [|r rs IH]; simpl; [done|].
  by rewrite Hext, IH.
Qed.

Section Extras.
Context `{UnicodeTables}.

Lemma parseCatalogue_sound (x : string) (lvl : Level) :
  parseCatalogue x = Some lvl -> ParseLevel x = (lvl, true).
Proof.
  unfold parseCatalogue. destruct (ParseLevel x) as [l []]; [|done].
  by intros [= ->].
Qed.

Lemma ParseLevel_in_catalogue (x : string) (lvl : Level) :
  ParseLevel x = (lvl, true) -> In lvl levels.
Proof.
  rewrite ParseLevel_cases.
  repeat case_decide; intros [= <-]; simpl; tauto.
Qed.

Lemma serve_logging_invariant logSet logReset (h : logHandler) (r : Request) (w : World) :
  (forall lvl, logsOnly (logSet lvl)) -> logsOnly logReset ->
  catalogueOrInit h w ->
  catalogueOrInit h
    (world (serve (ServeHTTP_logging parseCatalogue complaintCatalogue
                     logSet logReset h) r w)).
Proof.
  intros Hset Hreset Hinv. pose proof Hinv as (c & Hc & _).
  assert (heap w !! current h <> None) as Hsome by (by rewrite Hc).
  destruct (serve_logging_cases parseCatalogue complaintCatalogue logSet logReset h r w)
    as [[_ ->] | [[_ (x & _ & ->)] | [[_ ->] | [_ ->]]]].
  - by destruct (heap w !! current h).
  - destruct (parseCatalogue x) as [lvl|] eqn:Hp; [|done].
    exists lvl. split; [by apply setThenLog_touchesOnly|].
    left. by apply (ParseLevel_in_catalogue x), parseCatalogue_sound.
  - exists (init h). split; [by apply setThenLog_touchesOnly|]. by right.
  - done.
Qed.

Lemma serveAll_logging_invariant logSet logReset (h : logHandler)
    (rs : list Request) (w : World) :
  (forall lvl, logsOnly (logSet lvl)) -> logsOnly logReset ->
  catalogueOrInit h w ->
  catalogueOrInit h
    (world (serveAll (ServeHTTP_logging parseCatalogue complaintCatalogue
                        logSet logReset h) rs w)).
Proof.
  intros Hset Hreset. revert w. induction rs as [|r rs IH]; intros w Hinv; [done|].
  pose proof (serve_logging_invariant logSet logReset h r w Hset Hreset Hinv) as Hstep.
  simpl. unfold mbind, M_bind. rewrite world_bind.
  destruct (serve _ r w) as [resp w1| |]; try done.
  rewrite world_bind. specialize (IH w1 Hstep).
  by destruct (serveAll _ rs w1).
Qed.

(** X3. In the revision of [log.go], the name that GET reports for a level
    is accepted by PUT and POST, whatever the level: the request is answered
    202 and leaves that level in the cell. *)
Theorem reported_name_restores_level (h : logHandler) (r g : Request)
    (w : World) (c : Level) :
  minInt64 <= c <= maxInt64 ->
  setsLevel r -> lastSegment (URL_Path r) = Some (Level_String c) ->
  Method g = MethodGet -> ready h w ->
  Level_UnmarshalText (Level_String c) = Some c /\
  exists w',
    serve (log_go.ServeHTTP h) r w = Returns (StatusAccepted, EmptyString) w' /\
    heap w' !! current h = Some c /\
    serve (log_go.ServeHTTP h) g w' = Returns (StatusOK, Level_String c) w'.
Proof.
  intros Hc Hm Hx Hg Hr. pose proof (UnmarshalText_String c Hc) as Hparse.
  split; [done|]. rewrite !serve_log_go. by eapply set_then_get.
Qed.

(** X4. In the catalogue revisions, the name that GET reports for a level
    outside the catalogue (an initial level such as INFO+2) is refused by PUT
    and POST: the request is answered 400 and changes nothing. *)
Theorem catalogue_refuses_offset_names (h : logHandler) (r g : Request)
    (w : World) (c : Level) :
  minInt64 <= c <= maxInt64 -> ~ In c levels ->
  setsLevel r -> lastSegment (URL_Path r) = Some (Level_String c) ->
  Method g = MethodGet -> heap w !! current h = Some c ->
  serve (part_000.ServeHTTP h) g w = Returns (StatusOK, Level_String c) w /\
  serve (part_000.ServeHTTP h) r w =
    Returns (StatusBadRequest, complaintCatalogue (Level_String c)) w /\
  serve (part_001.ServeHTTP h) r w =
    Returns (StatusBadRequest, complaintCatalogue (Level_String c)) w.
Proof.
  intros Hc Hout Hm Hx Hg Hcell.
  pose proof (ParseLevel_String_offset c Hc Hout) as Hparse.
  assert (parseCatalogue (Level_String c) = None) as Hnone
    by (unfold parseCatalogue; by rewrite Hparse).
  split; [rewrite serve_part_000; by apply serve_GET|].
  split.
  - rewrite serve_part_000. by apply serve_set_bad.
  - rewrite part_001_logging.
    destruct (serve_logging_cases parseCatalogue complaintCatalogue
                logSetInfo (logResetInfo h) h r w)
      as [[Hm' _] | [[_ (x & Hx' & ->)] | [[Hm' _] | [Hm' _]]]];
      try (exfalso;
           unfold setsLevel, unknownMethod, MethodGet, MethodPut, MethodPost,
             MethodDelete in *;
           repeat match goal with
                  | Hc : _ /\ _ |- _ => destruct Hc
                  | Hc : _ \/ _ |- _ => destruct Hc
                  end; congruence).
    rewrite Hx in Hx'. injection Hx' as <-. by rewrite Hnone.
Qed.

(** X5. A request that does not set the level, and a PUT or POST whose last
    segment is a string of ASCII bytes that [ParseLevel] finds, is answered
    by the handler of [log.go] as by the catalogue handler: same response,
    same world. *)
Theorem catalogue_request_same_in_log_go (h : logHandler) (r : Request) (w : World) :
  (setsLevel r ->
   exists x, lastSegment (URL_Path r) = Some x /\ isASCII x = true /\
             snd (ParseLevel x) = true) ->
  serve (part_000.ServeHTTP h) r w = serve (log_go.ServeHTTP h) r w.
Proof.
  intros Hfound. rewrite part_000_logging, log_go_logging.
  apply serve_logging_parsers. intros x Hm Hx.
  destruct (Hfound Hm) as (x' & Hx' & Hascii & Hsnd).
  rewrite Hx in Hx'. injection Hx' as <-.
  unfold parseCatalogue. destruct (ParseLevel x) as [lvl ok] eqn:Hp.
  simpl in Hsnd. subst ok.
  assert (Level_UnmarshalText x = Some lvl) as ->; [|done].
  rewrite ParseLevel_cases in Hp.
  repeat case_decide; simplify_eq;
    eapply UnmarshalText_of_lower; eauto; reflexivity.
Qed.

(** X6. The handler reads the path of a request only when the request is a
    PUT or a POST, and then only its last segment: requests of one method (and
    last segment, if they set the level) are answered alike, in every
    revision. *)
Theorem serve_last_segment_only (h : logHandler) (r1 r2 : Request) (w : World) :
  Method r1 = Method r2 ->
  (setsLevel r1 -> lastSegment (URL_Path r1) = lastSegment (URL_Path r2)) ->
  serve (part_000.ServeHTTP h) r1 w = serve (part_000.ServeHTTP h) r2 w /\
  serve (log_go.ServeHTTP h) r1 w = serve (log_go.ServeHTTP h) r2 w /\
  serve (part_001.ServeHTTP h) r1 w = serve (part_001.ServeHTTP h) r2 w.
Proof.
  intros Hm Hseg.
  rewrite !part_000_logging, !log_go_logging, !part_001_logging.
  repeat split; by apply serve_logging_segment.
Qed.

(** X7. Whatever the request and however it ends, the handler leaves the
    default logger as it is, creates and removes no cell, changes no cell but
    its own, and writes at most one record, at level info, through the
    default logger; it never exits the process.  Every revision. *)
Theorem serve_touches_only (h : logHandler) (r : Request) (w : World) :
  (touchesOnly h w (world (serve (part_000.ServeHTTP h) r w)) /\
   forall status w', serve (part_000.ServeHTTP h) r w <> Exits status w') /\
  (touchesOnly h w (world (serve (log_go.ServeHTTP h) r w)) /\
   forall status w', serve (log_go.ServeHTTP h) r w <> Exits status w') /\
  (touchesOnly h w (world (serve (part_001.ServeHTTP h) r w)) /\
   forall status w', serve (part_001.ServeHTTP h) r w <> Exits status w').
Proof.
  rewrite !part_000_logging, !log_go_logging, !part_001_logging.
  repeat split;
    first [ apply serve_logging_touchesOnly
          | eapply (proj1 (serve_logging_touchesOnly _ _ _ _ _ _ _ r w))
          | eapply (proj2 (serve_logging_touchesOnly _ _ _ _ _ _ _ r w)) ];
    auto using logSetAttrs_logsOnly, logResetAttrs_logsOnly,
               logSetInfo_logsOnly, logResetInfo_logsOnly.
Qed.

(** X8. A response is one of four: 200 to a GET, 202 with an empty body to a
    PUT, POST or DELETE, 400 to a PUT or POST, 405 with an empty body to any
    other method; and but for 202 the world is the one the request came in.
    Every revision. *)
Theorem serve_answers (h : logHandler) (r : Request) (w w' : World) (resp : Response) :
  serve (part_000.ServeHTTP h) r w = Returns resp w' \/
  serve (log_go.ServeHTTP h) r w = Returns resp w' \/
  serve (part_001.ServeHTTP h) r w = Returns resp w' ->
  answers r w resp w'.
Proof.
  rewrite !part_000_logging, !log_go_logging, !part_001_logging.
  intros [Hs | [Hs | Hs]]; by eapply serve_logging_answers.
Qed.

(** X9. The revision that logs with [slog.Info] does what the catalogue
    revision does, to the last record, but for the attributes of the records
    it writes: it carries the level itself where the other carries its
    name. *)
Theorem part_001_same_but_attrs (h : logHandler) (r : Request) (w : World) :
  mapWorld forgetAttrs (serve (part_001.ServeHTTP h) r w) =
  mapWorld forgetAttrs (serve (part_000.ServeHTTP h) r w) /\
  (forall lvl,
      slog_args.argsToAttrSlice
        [slog_args.AnyString "newLevel"; slog_args.AnyLevel lvl]
      = [{| Key := "newLevel"; Val := LevelValue lvl |}] /\
      logSetInfo lvl w =
        Logger_Log (defaultLogger w) LevelInfo "log level set"
          [{| Key := "newLevel"; Val := LevelValue lvl |}] w /\
      logSetAttrs lvl w =
        Logger_Log (defaultLogger w) LevelInfo "log level set"
          [{| Key := "newLevel"; Val := StringValue (Level_String lvl) |}] w).
Proof.
  split; [|done].
  rewrite part_000_logging, part_001_logging.
  apply serve_logging_forget; intros; apply Logger_Log_forgetAttrs.
Qed.

(** X10. In the catalogue revisions the cell of a handler holds a level of
    the catalogue or the initial level of the handler, after any run of
    requests, however the run ends. *)
Theorem catalogue_or_init_kept (h : logHandler) (rs : list Request) (w : World) :
  catalogueOrInit h w ->
  catalogueOrInit h (world (serveAll (part_000.ServeHTTP h) rs w)) /\
  catalogueOrInit h (world (serveAll (part_001.ServeHTTP h) rs w)).
Proof.
  intros Hinv.
  rewrite (serveAll_ext _ _ rs (part_000_logging h)).
  rewrite (serveAll_ext _ _ rs (part_001_logging h)).
  split; apply serveAll_logging_invariant;
    auto using logSetAttrs_logsOnly, logResetAttrs_logsOnly,
               logSetInfo_logsOnly, logResetInfo_logsOnly.
Qed.

End Extras.

(* ===================================================================== *)
(** ** The logger and the handler on one cell                              *)
(* ===================================================================== *)

Lemma defaultReadable_insert (p : loc) (l : Level) (w : World) :
  defaultReadable w -> defaultReadable (setCell p l w).
Proof.
  intros [t Ht]. unfold defaultReadable, threshold in *. simpl.
  destruct (Level_ (options (handler (defaultLogger w)))) as [[c|q]|]; eauto.
  destruct (decide (p = q)) as [->|Hne].
  - rewrite lookup_insert_eq. eauto.
  - rewrite lookup_insert_ne by done. eauto.
Qed.

Lemma threshold_loggerOn (p : loc) opts jsonOutput attrs (w : World) :
  threshold (handler (loggerOn p opts jsonOutput attrs)) w = heap w !! p.
Proof.
  unfold threshold, loggerOn. by destruct jsonOutput.
Qed.

(** X11. The logger and the handler that [Create] returns share the cell:
    the logger writes the records at or above the initial level, and after
    a PUT or POST of a catalogue level through the handler it writes the
    records at or above that level, and no other. *)
Theorem logger_follows_handler `{UnicodeTables} (opts : HandlerOptions)
    (jsonOutput : bool) (attrs : list Attr) (w : World) (L X : Level) (r : Request) :
  levelOf (Level_ opts) w = Some L -> defaultReadable w ->
  In X levels -> setsLevel r -> lastSegment (URL_Path r) = Some (Level_String X) ->
  exists logger h w1 w2,
    Create opts jsonOutput attrs w = Returns (logger, h) w1 /\
    serve (part_000.ServeHTTP h) r w1 = Returns (StatusAccepted, EmptyString) w2 /\
    (forall l msg args,
        Logger_Log logger l msg args w1 =
          Returns tt (if L <=? l
                      then written (handler logger)
                             {| rlevel := l; rmsg := msg; rattrs := args |} w1
                      else w1)) /\
    (forall l msg args,
        Logger_Log logger l msg args w2 =
          Returns tt (if X <=? l
                      then written (handler logger)
                             {| rlevel := l; rmsg := msg; rattrs := args |} w2
                      else w2)).
Proof.
  intros HL Hw HX Hm Hx.
  pose proof (Create_returns opts jsonOutput attrs w L HL) as HC.
  set (p := fresh (dom (heap w))) in *.
  set (h := {| init := L; current := p |}) in *.
  set (w1 := setCell p L w) in *.
  assert (heap w1 !! current h = Some L) as Hcell by (simpl; apply lookup_insert_eq).
  assert (defaultReadable w1) as Hw1 by (by apply defaultReadable_insert).
  destruct (Level_String_catalogue X HX) as (_ & _ & Hparse & _).
  assert (parseCatalogue (Level_String X) = Some X) as Hp
    by (unfold parseCatalogue; by rewrite Hparse).
  eexists _, h, w1, _. split; [exact HC|]. split.
  { rewrite serve_part_000. by eapply serve_set_ok. }
  split; intros l msg args; rewrite Logger_Log_cases, threshold_loggerOn.
  - change (heap w1 !! p) with (heap w1 !! current h). by rewrite Hcell.
  - rewrite heap_logged. simpl. by rewrite lookup_insert_eq.
Qed.

(** X12. After [SetDefaults] the default logger is the one on the cell of the
    handler, and the handler stores the new level before it logs: the record
    "log level set" of a PUT or POST is written when the new level is at most
    info and is dropped when it is warn or error; likewise the record of a
    DELETE, by the initial level. *)
Theorem SetDefaults_filters_own_record `{UnicodeTables} (opts : HandlerOptions)
    (jsonOutput : bool) (attrs : list Attr) (w : World) (L X : Level)
    (r d : Request) :
  levelOf (Level_ opts) w = Some L ->
  In X levels -> setsLevel r -> lastSegment (URL_Path r) = Some (Level_String X) ->
  Method d = MethodDelete ->
  exists h w1 w2 w3,
    SetDefaults opts jsonOutput attrs w = Returns h w1 /\
    stderr w1 = stderr w /\
    serve (part_000.ServeHTTP h) r w1 = Returns (StatusAccepted, EmptyString) w2 /\
    stderr w2 =
      stderr w ++
      (if X <=? LevelInfo
       then [(handler (defaultLogger w1),
              {| rlevel := LevelInfo; rmsg := "log level set";
                 rattrs := [String_ "newLevel" (Level_String X)] |})]
       else []) /\
    serve (part_000.ServeHTTP h) d w1 = Returns (StatusAccepted, EmptyString) w3 /\
    stderr w3 =
      stderr w ++
      (if L <=? LevelInfo
       then [(handler (defaultLogger w1),
              {| rlevel := LevelInfo; rmsg := "log level reset";
                 rattrs := [String_ "newLevel" (Level_String L)] |})]
       else []).
Proof.
  intros HL HX Hm Hx Hd.
  pose proof (Create_returns opts jsonOutput attrs w L HL) as HC.
  set (p := fresh (dom (heap w))) in *.
  set (h := {| init := L; current := p |}) in *.
  set (w1 := {| heap := <[p := L]> (heap w);
                defaultLogger := loggerOn p opts jsonOutput attrs;
                stderr := stderr w |}).
  assert (heap w1 !! current h = Some L) as Hcell by (simpl; apply lookup_insert_eq).
  assert (defaultReadable w1) as Hw1.
  { exists L. unfold w1. simpl. rewrite threshold_loggerOn. simpl.
    apply lookup_insert_eq. }
  destruct (Level_String_catalogue X HX) as (_ & _ & Hparse & _).
  assert (parseCatalogue (Level_String X) = Some X) as Hp
    by (unfold parseCatalogue; by rewrite Hparse).
  eexists h, w1, _, _. split.
  { unfold SetDefaults. unfold_M. by rewrite HC. }
  split; [done|]. split.
  { rewrite serve_part_000. by eapply serve_set_ok. }
  split.
  { unfold logged. simpl. rewrite threshold_loggerOn. simpl.
    rewrite lookup_insert_eq. destruct (X <=? LevelInfo); simpl; [done|].
    by rewrite app_nil_r. }
  split.
  { rewrite serve_part_000. by eapply serve_DELETE. }
  unfold logged. simpl. rewrite threshold_loggerOn. simpl.
  rewrite lookup_insert_eq. destruct (L <=? LevelInfo); simpl; [done|].
  by rewrite app_nil_r.
Qed.

(** X13. With a nil [Level] in the options, [Create] panics, having
    allocated the cell and nothing else, and [SetDefaults] panics before it
    sets the default logger. *)
Theorem Create_nil_Level_panics (opts : HandlerOptions) (jsonOutput : bool)
    (attrs : list Attr) (w : World) :
  Level_ opts = None ->
  exists w',
    Create opts jsonOutput attrs w = Panics w' /\
    SetDefaults opts jsonOutput attrs w = Panics w' /\
    onlyAllocates w w'.
Proof.
  intros Hnil. eexists. split; [|split].
  - unfold Create. unfold_M. unfold newLevelVar. rewrite Hnil. reflexivity.
  - unfold SetDefaults, Create. unfold_M. unfold newLevelVar. rewrite Hnil. reflexivity.
  - apply onlyAllocates_fresh.
Qed.

(** X14. [SetDefault], of the earlier revision, is [SetDefaults] on options
    with the level as a constant and no [ReplaceAttr]; it always returns,
    with a handler whose cell and reset target hold the level, and a default
    logger that reads its threshold from that cell. *)
Theorem SetDefault_is_SetDefaults (level : Level) (addSource jsonOutput : bool)
    (attributes : list Attr) (w : World) :
  part_001.SetDefault level addSource jsonOutput attributes w =
    SetDefaults {| AddSource := addSource; Level_ := Some (LevelConst level);
                   ReplaceAttr := None |} jsonOutput attributes w /\
  exists h w',
    part_001.SetDefault level addSource jsonOutput attributes w = Returns h w' /\
    init h = level /\ heap w' !! current h = Some level /\
    threshold (handler (defaultLogger w')) w' = Some level /\
    stderr w' = stderr w /\
    forall q, is_Some (heap w !! q) -> heap w' !! q = heap w !! q.
Proof.
  set (opts := {| AddSource := addSource; Level_ := Some (LevelConst level);
                  ReplaceAttr := None |}).
  pose proof (Create_returns opts jsonOutput attributes w level eq_refl) as HC.
  pose proof (fresh_cell_unused w) as Hp.
  set (p := fresh (dom (heap w))) in *.
  assert (part_001.SetDefault level addSource jsonOutput attributes w =
          Returns {| init := level; current := p |}
            {| heap := <[p := level]> (heap w);
               defaultLogger := loggerOn p opts jsonOutput attributes;
               stderr := stderr w |}) as HS.
  { unfold part_001.SetDefault. unfold_M. unfold newLevelVar, LevelVar_Set. fold p.
    simpl. rewrite lookup_insert_eq, insert_insert_eq. unfold loggerOn.
    by destruct jsonOutput. }
  split.
  - rewrite HS. unfold SetDefaults. unfold_M. by rewrite HC.
  - eexists _, _. split; [exact HS|]. simpl.
    rewrite threshold_loggerOn. simpl. rewrite lookup_insert_eq.
    repeat split; try done.
    intros q [c Hq]. apply lookup_insert_ne. intros <-. by rewrite Hp in Hq.
Qed.

(* ===================================================================== *)
(** ** The build information                                               *)
(* ===================================================================== *)


Lemma collect_loop (settings : list BuildSetting) (acc : list Attr) :
  foldl (fun attrs kv =>
           if HasPrefix (SKey kv) "vcs"
           then attrs ++ [String_ (SKey kv) (SValue kv)]
           else attrs) acc settings
  = acc ++ map settingAttr (List.filter vcsSetting settings).
Proof.
  revert acc. induction settings as [|kv settings IH]; intros acc; simpl.
  - by rewrite app_nil_r.
  - rewrite IH. unfold vcsSetting at 2.
    destruct (HasPrefix (SKey kv) "vcs"); [|done].
    by rewrite <- app_assoc.
Qed.

(** X15. Without build information [LogBuildInfo] returns false and does
    nothing.  With it, [LogBuildInfo] returns true after one call of the
    default logger at level info, with the Go version first and then the
    settings whose key starts with "vcs", in their order, and no other
    setting; the record is written when the threshold of the default logger
    is at most info, and true is returned also when it is dropped.  The
    revision without a result does the same to the world. *)
Theorem LogBuildInfo_record (read : option BuildInfo) (w : World) (t : Level) :
  threshold (handler (defaultLogger w)) w = Some t ->
  (read = None -> LogBuildInfo read w = Returns false w) /\
  (forall info, read = Some info ->
     collect info =
       String_ "goVersion" (GoVersion info) ::
       map settingAttr (List.filter vcsSetting (Settings info)) /\
     LogBuildInfo read w =
       Returns true
         (if t <=? LevelInfo
          then written (handler (defaultLogger w))
                 {| rlevel := LevelInfo; rmsg := "build info";
                    rattrs := collect info |} w
          else w)) /\
  world (LogBuildInfo_noResult read w) = world (LogBuildInfo read w).
Proof.
  intros Ht. split; [by intros ->|]. split.
  - intros info ->. split; [apply collect_loop|].
    unfold LogBuildInfo. unfold_M. unfold LogAttrs.
    by rewrite Logger_Log_cases, Ht.
  - destruct read as [info|]; [|done].
    unfold LogBuildInfo, LogBuildInfo_noResult. unfold_M. unfold LogAttrs.
    by rewrite Logger_Log_cases, Ht.
Qed.

(* ===================================================================== *)
(** ** The properties above on concrete inputs                             *)
(* ===================================================================== *)

Lemma reported_name_restores_level_witness :
  @Level_UnmarshalText noTables "WARN+2" = Some 6 /\
  exists w',
    serve (@log_go.ServeHTTP noTables (handlerAt cell1 LevelInfo))
      (request "PUT" "/log/WARN+2") (cellWorld cell1 LevelInfo)
      = Returns (StatusAccepted, EmptyString) w' /\
    heap w' !! cell1 = Some 6 /\
    serve (@log_go.ServeHTTP noTables (handlerAt cell1 LevelInfo))
      (request "GET" "/log") w' = Returns (StatusOK, "WARN+2") w'.
Proof.
  apply (@reported_name_restores_level noTables (handlerAt cell1 LevelInfo)
           (request "PUT" "/log/WARN+2") (request "GET" "/log")
           (cellWorld cell1 LevelInfo) 6).
  - unfold minInt64, maxInt64. lia.
  - left. reflexivity.
  - reflexivity.
  - reflexivity.
  - apply ready_cellWorld.
Defined.

Lemma catalogue_refuses_offset_names_witness :
  serve (@part_000.ServeHTTP noTables (handlerAt cell1 2))
    (request "GET" "/log") (cellWorld cell1 2)
  = Returns (StatusOK, "INFO+2") (cellWorld cell1 2) /\
  serve (@part_000.ServeHTTP noTables (handlerAt cell1 2))
    (request "PUT" "/log/INFO+2") (cellWorld cell1 2)
  = Returns (StatusBadRequest, @complaintCatalogue noTables "INFO+2") (cellWorld cell1 2) /\
  serve (@part_001.ServeHTTP noTables (handlerAt cell1 2))
    (request "PUT" "/log/INFO+2") (cellWorld cell1 2)
  = Returns (StatusBadRequest, @complaintCatalogue noTables "INFO+2") (cellWorld cell1 2).
Proof.
  apply (@catalogue_refuses_offset_names noTables (handlerAt cell1 2)
           (request "PUT" "/log/INFO+2") (request "GET" "/log")
           (cellWorld cell1 2) 2).
  - unfold minInt64, maxInt64. lia.
  - unfold levels, LevelDebug, LevelInfo, LevelWarn, LevelError. simpl. lia.
  - left. reflexivity.
  - reflexivity.
  - reflexivity.
  - reflexivity.
Defined.

Lemma catalogue_request_same_in_log_go_witness :
  serve (@part_000.ServeHTTP noTables (handlerAt cell1 LevelInfo))
    (request "POST" "/log/deBUG") (cellWorld cell1 LevelInfo) =
  serve (@log_go.ServeHTTP noTables (handlerAt cell1 LevelInfo))
    (request "POST" "/log/deBUG") (cellWorld cell1 LevelInfo).
Proof.
  apply (@catalogue_request_same_in_log_go noTables).
  intros _. exists "deBUG". repeat split; reflexivity.
Defined.

Lemma serve_last_segment_only_witness :
  serve (@part_000.ServeHTTP noTables (handlerAt cell1 LevelInfo))
    (busyRequest "PUT" "/api/v1/log/warn") (cellWorld cell1 LevelInfo) =
  serve (@part_000.ServeHTTP noTables (handlerAt cell1 LevelInfo))
    (request "PUT" "warn") (cellWorld cell1 LevelInfo) /\
  serve (@log_go.ServeHTTP noTables (handlerAt cell1 LevelInfo))
    (busyRequest "PUT" "/api/v1/log/warn") (cellWorld cell1 LevelInfo) =
  serve (@log_go.ServeHTTP noTables (handlerAt cell1 LevelInfo))
    (request "PUT" "warn") (cellWorld cell1 LevelInfo) /\
  serve (@part_001.ServeHTTP noTables (handlerAt cell1 LevelInfo))
    (busyRequest "PUT" "/api/v1/log/warn") (cellWorld cell1 LevelInfo) =
  serve (@part_001.ServeHTTP noTables (handlerAt cell1 LevelInfo))
    (request "PUT" "warn") (cellWorld cell1 LevelInfo).
Proof.
  apply (@serve_last_segment_only noTables (handlerAt cell1 LevelInfo)
           (busyRequest "PUT" "/api/v1/log/warn") (request "PUT" "warn")
           (cellWorld cell1 LevelInfo)).
  - reflexivity.
  - intros _. reflexivity.
Defined.

Lemma serve_answers_witness :
  answers (request "DELETE" "/log") (cellWorld cell1 LevelError)
    (StatusAccepted, EmptyString)
    (world (serve (@part_001.ServeHTTP noTables (handlerAt cell1 LevelInfo))
              (request "DELETE" "/log") (cellWorld cell1 LevelError))).
Proof.
  apply (@serve_answers noTables (handlerAt cell1 LevelInfo)).
  right; right. reflexivity.
Defined.

Lemma catalogue_or_init_kept_witness :
  catalogueOrInit (handlerAt cell1 2)
    (world (serveAll (@part_000.ServeHTTP noTables (handlerAt cell1 2))
              [request "PUT" "/log/error"; request "PUT" "/log/INFO+3";
               request "DELETE" "/log"] (cellWorld cell1 2))) /\
  catalogueOrInit (handlerAt cell1 2)
    (world (serveAll (@part_001.ServeHTTP noTables (handlerAt cell1 2))
              [request "PUT" "/log/error"; request "PUT" "/log/INFO+3";
               request "DELETE" "/log"] (cellWorld cell1 2))).
Proof.
  apply (@catalogue_or_init_kept noTables).
  exists 2. split; [reflexivity | right; reflexivity].
Defined.

Lemma logger_follows_handler_witness :
  exists logger h w1 w2,
    Create (optionsAt LevelInfo) false [] startWorld = Returns (logger, h) w1 /\
    serve (@part_000.ServeHTTP noTables h) (request "PUT" "/log/WARN") w1
      = Returns (StatusAccepted, EmptyString) w2 /\
    (forall l msg args,
        Logger_Log logger l msg args w1 =
          Returns tt (if LevelInfo <=? l
                      then written (handler logger)
                             {| rlevel := l; rmsg := msg; rattrs := args |} w1
                      else w1)) /\
    (forall l msg args,
        Logger_Log logger l msg args w2 =
          Returns tt (if LevelWarn <=? l
                      then written (handler logger)
                             {| rlevel := l; rmsg := msg; rattrs := args |} w2
                      else w2)).
Proof.
  apply (@logger_follows_handler noTables (optionsAt LevelInfo) false [] startWorld
           LevelInfo LevelWarn (request "PUT" "/log/WARN")).
  - reflexivity.
  - exists LevelInfo. reflexivity.
  - simpl. tauto.
  - left. reflexivity.
  - reflexivity.
Defined.

Lemma SetDefaults_filters_own_record_witness :
  exists h w1 w2 w3,
    SetDefaults (optionsAt LevelDebug) false [] startWorld = Returns h w1 /\
    stderr w1 = [] /\
    serve (@part_000.ServeHTTP noTables h) (request "PUT" "/log/ERROR") w1
      = Returns (StatusAccepted, EmptyString) w2 /\
    stderr w2 = [] /\
    serve (@part_000.ServeHTTP noTables h) (request "DELETE" "/log") w1
      = Returns (StatusAccepted, EmptyString) w3 /\
    stderr w3 = [(handler (defaultLogger w1),
                  {| rlevel := LevelInfo; rmsg := "log level reset";
                     rattrs := [String_ "newLevel" "DEBUG"] |})].
Proof.
  apply (@SetDefaults_filters_own_record noTables (optionsAt LevelDebug) false []
           startWorld LevelDebug LevelError
           (request "PUT" "/log/ERROR") (request "DELETE" "/log")).
  - reflexivity.
  - simpl. tauto.
  - left. reflexivity.
  - reflexivity.
  - reflexivity.
Defined.

Lemma Create_nil_Level_panics_witness :
  exists w',
    Create nilOptions true [] startWorld = Panics w' /\
    SetDefaults nilOptions true [] startWorld = Panics w' /\
    onlyAllocates startWorld w'.
Proof.
  apply (Create_nil_Level_panics nilOptions true [] startWorld). reflexivity.
Defined.

Lemma LogBuildInfo_record_witness :
  LogBuildInfo None startWorld = Returns false startWorld /\
  collect someBuild =
    [String_ "goVersion" "go1.22.1"; String_ "vcs" "git";
     String_ "vcs.revision" "0a1b2c"; String_ "vcs.modified" "false"] /\
  LogBuildInfo (Some someBuild) startWorld =
    Returns true
      (written (handler (defaultLogger startWorld))
         {| rlevel := LevelInfo; rmsg := "build info"; rattrs := collect someBuild |}
         startWorld) /\
  LogBuildInfo (Some someBuild) (busyWorld cell1 LevelInfo) =
    Returns true (busyWorld cell1 LevelInfo).
Proof.
  destruct (LogBuildInfo_record None startWorld LevelInfo eq_refl) as (Hnone & _ & _).
  destruct (LogBuildInfo_record (Some someBuild) startWorld LevelInfo eq_refl)
    as (_ & Hsome & _).
  destruct (LogBuildInfo_record (Some someBuild) (busyWorld cell1 LevelInfo)
              LevelWarn eq_refl) as (_ & Hdrop & _).
  split; [by apply Hnone|].
  destruct (Hsome someBuild eq_refl) as [Hcollect Hlog].
  split; [exact Hcollect|]. split; [exact Hlog|].
  apply (Hdrop someBuild eq_refl).
Defined.
